(** * lhco_converter: LHCO text to CSV / DOCX tables

    A shallow embedding of [lhco_converter.py].  Python values that the
    script manipulates are modelled as follows.

    - text is [string]: a character is a code point below 256, and the
      character classes of [str.split] and [str.isdigit] are Python's on
      that range (so the no-break space separates tokens and a superscript
      two is a digit);
    - a [dict] is an association list in insertion order (key order is
      observable through [keys()], the CSV header and the DOCX header row);
    - every operation that can raise in Python returns a [result];
    - the file system, the two output streams and the availability of the
      [docx] package form a [world] that is threaded through the I/O code. *)

From Stdlib Require Import String Ascii List Bool Arith Lia ZArith.
Import ListNotations.
Open Scope string_scope.
Open Scope list_scope.
Open Scope nat_scope.

(** ** Python values, exceptions and results *)

Inductive pyval : Type :=
| PNone : pyval
| PStr (s : string) : pyval.

Inductive exn : Type :=
| NameError (name : string)
| KeyError (key : string)
| IndexError
| ValueError (msg : string)
| OSError (path : string)
| SystemExit (code : Z).

Inductive result (A : Type) : Type :=
| Ok (a : A)
| Raise (e : exn).
Arguments Ok {A} a.
Arguments Raise {A} e.

Definition rbind {A B : Type} (m : result A) (k : A -> result B) : result B :=
  match m with
  | Ok a => k a
  | Raise e => Raise e
  end.

Declare Scope py_scope.
Delimit Scope py_scope with py.
Notation "x <- m ;; k" := (rbind m (fun x => k))
  (at level 61, m at next level, right associativity) : py_scope.

Definition pyval_eqb (a b : pyval) : bool :=
  match a, b with
  | PNone, PNone => true
  | PStr s, PStr t => String.eqb s t
  | _, _ => false
  end.

(** [str(v)]: the text of a value. *)
Definition py_str (v : pyval) : string :=
  match v with
  | PNone => "None"
  | PStr s => s
  end.

(** ** [str.isspace], [str.isdigit], [str.split()] *)

(** Whitespace as [str.split()] without arguments sees it: TAB, LF, VT, FF,
    CR, the separators FS, GS, RS, US, the space, and beyond ASCII the next
    line control U+0085 and the no-break space U+00A0. *)
Definition isspace (c : ascii) : bool :=
  let n := nat_of_ascii c in
  ((9 <=? n) && (n <=? 13)) || ((28 <=? n) && (n <=? 32))
  || (n =? 133) || (n =? 160).

(** A digit as [str.isdigit()] sees it: 0 to 9, and beyond ASCII the
    superscripts two U+00B2, three U+00B3 and one U+00B9. *)
Definition isdigit_char (c : ascii) : bool :=
  let n := nat_of_ascii c in
  ((48 <=? n) && (n <=? 57)) || (n =? 178) || (n =? 179) || (n =? 185).

Fixpoint all_chars (p : ascii -> bool) (s : string) : bool :=
  match s with
  | EmptyString => true
  | String c s' => p c && all_chars p s'
  end.

(** [s.isdigit()] is false on the empty string. *)
Definition isdigit (s : string) : bool :=
  match s with
  | EmptyString => false
  | _ => all_chars isdigit_char s
  end.

(** [s.split()]: maximal runs of non-whitespace characters, in order.
    [cur] is the token being read (empty between tokens). *)
Fixpoint split_from (cur : string) (s : string) : list string :=
  match s with
  | EmptyString =>
      match cur with EmptyString => [] | _ => [cur] end
  | String c s' =>
      if isspace c then
        match cur with
        | EmptyString => split_from "" s'
        | _ => cur :: split_from "" s'
        end
      else split_from (cur ++ String c "")%string s'
  end.

Definition split (s : string) : list string := split_from "" s.

(** [tokens[i]] raises [IndexError] past the end. *)
Definition index (tokens : list string) (i : nat) : result string :=
  match nth_error tokens i with
  | Some t => Ok t
  | None => Raise IndexError
  end.

(** ** Dictionaries *)

Definition dict : Type := list (string * pyval).

Definition keys (d : dict) : list string := map fst d.

Fixpoint dict_get (d : dict) (k : string) : option pyval :=
  match d with
  | [] => None
  | (k', v) :: d' => if String.eqb k' k then Some v else dict_get d' k
  end.

(** [k in d] *)
Definition dict_mem (d : dict) (k : string) : bool :=
  match dict_get d k with Some _ => true | None => false end.

(** [d[k]] raises [KeyError] on a missing key. *)
Definition getitem (d : dict) (k : string) : result pyval :=
  match dict_get d k with
  | Some v => Ok v
  | None => Raise (KeyError k)
  end.

(** [d[k] = v]: an existing key keeps its position, a new one goes last. *)
Fixpoint setitem (d : dict) (k : string) (v : pyval) : dict :=
  match d with
  | [] => [(k, v)]
  | (k', v') :: d' =>
      if String.eqb k' k then (k', v) :: d' else (k', v') :: setitem d' k v
  end.

(** [d.get(k, default)] *)
Definition dict_get_default (d : dict) (k : string) (default : pyval) : pyval :=
  match dict_get d k with Some v => v | None => default end.

(** ** The reader: [parse_lhco] *)

(** The dict literal of lines 32-43; the nine subscripts are evaluated in
    source order. *)
Definition make_rec (event_id : pyval) (tokens : list string) : result dict :=
  (t0 <- index tokens 0 ;;
   t1 <- index tokens 1 ;;
   t2 <- index tokens 2 ;;
   t3 <- index tokens 3 ;;
   t4 <- index tokens 4 ;;
   t5 <- index tokens 5 ;;
   t6 <- index tokens 6 ;;
   t7 <- index tokens 7 ;;
   t8 <- index tokens 8 ;;
   Ok [("event", event_id); ("idx", PStr t0); ("typ", PStr t1);
       ("eta", PStr t2); ("phi", PStr t3); ("pt", PStr t4);
       ("jmas", PStr t5); ("ntrk", PStr t6); ("btag", PStr t7);
       ("hadem", PStr t8)])%py.

(** The loop state: the current [event_id] and the [records] list. *)
Definition parse_state : Type := (pyval * list dict)%type.

(** The test of line 27, [len(tokens) == 3 and tokens[0].isdigit()];
    [and] evaluates its right operand only when the left one holds. *)
Definition is_header (tokens : list string) : result bool :=
  if length tokens =? 3 then (t0 <- index tokens 0 ;; Ok (isdigit t0))%py
  else Ok false.

(** One iteration of the loop of lines 22-44 on the line [raw]. *)
Definition parse_line (st : parse_state) (raw : string) : result parse_state :=
  let '(event_id, records) := st in
  let tokens := split raw in
  match tokens with
  | [] => Ok st
  | _ =>
      (hdr <- is_header tokens ;;
       if hdr : bool then
         (t1 <- index tokens 1 ;; Ok (PStr t1, records))
       else if 9 <=? length tokens then
         (rec <- make_rec event_id tokens ;; Ok (event_id, records ++ [rec]))
       else Ok st)%py
  end.

Fixpoint parse_loop (st : parse_state) (lines : list string) : result parse_state :=
  match lines with
  | [] => Ok st
  | raw :: rest => (st' <- parse_line st raw ;; parse_loop st' rest)%py
  end.

(** [parse_lhco] on the lines of the opened file. *)
Definition parse_lines (lines : list string) : result (list dict) :=
  (st <- parse_loop (PNone, []) lines ;; Ok (snd st))%py.

(** ** The filter / projector: [filter_records] *)

(** The loop of lines 59-61: copy the requested columns that the record
    has into [filtered]. *)
Fixpoint select_columns (rec filtered : dict) (columns : list string) : result dict :=
  match columns with
  | [] => Ok filtered
  | c :: rest =>
      if dict_mem rec c then
        (v <- getitem rec c ;; select_columns rec (setitem filtered c v) rest)%py
      else select_columns rec filtered rest
  end.

(** The body of the loop of lines 54-64; [None] stands for [continue].
    [columns] is tested for truth: [None] and the empty list are both false. *)
Definition filter_one (particle : option string) (columns : option (list string))
    (rec : dict) : result (option dict) :=
  (keep <- match particle with
           | None => Ok true
           | Some p => (typ <- getitem rec "typ" ;; Ok (pyval_eqb typ (PStr p)))
           end ;;
   if keep : bool then
     match columns with
     | Some (c :: cs) =>
         (event <- getitem rec "event" ;;
          filtered <- select_columns rec [("event", event)] (c :: cs) ;;
          Ok (Some filtered))
     | _ => Ok (Some rec)
     end
   else Ok None)%py.

Fixpoint filter_loop (particle : option string) (columns : option (list string))
    (out : list dict) (records : list dict) : result (list dict) :=
  match records with
  | [] => Ok out
  | rec :: rest =>
      (r <- filter_one particle columns rec ;;
       match r with
       | Some d => filter_loop particle columns (out ++ [d]) rest
       | None => filter_loop particle columns out rest
       end)%py
  end.

Definition filter_records (records : list dict) (particle : option string)
    (columns : option (list string)) : result (list dict) :=
  filter_loop particle columns [] records.

(** ** The [csv] writer in the default (excel) dialect *)

Definition LF : ascii := "010"%char.
Definition CR : ascii := "013"%char.
Definition COMMA : ascii := ","%char.
Definition DQUOTE : ascii := "034"%char.

Fixpoint any_char (p : ascii -> bool) (s : string) : bool :=
  match s with
  | EmptyString => false
  | String c s' => p c || any_char p s'
  end.

(** A field is quoted when it holds the delimiter, the quote character or a
    character of the line terminator. *)
Definition special (c : ascii) : bool :=
  Ascii.eqb c COMMA || Ascii.eqb c DQUOTE || Ascii.eqb c CR || Ascii.eqb c LF.

(** Quote characters inside a quoted field are doubled. *)
Fixpoint double_quotes (s : string) : string :=
  match s with
  | EmptyString => EmptyString
  | String c s' =>
      if Ascii.eqb c DQUOTE then String DQUOTE (String DQUOTE (double_quotes s'))
      else String c (double_quotes s')
  end.

Definition encode_field (s : string) : string :=
  if any_char special s
  then String DQUOTE (double_quotes s ++ String DQUOTE "")%string
  else s.

Fixpoint join_fields (fields : list string) : string :=
  match fields with
  | [] => ""
  | [f] => encode_field f
  | f :: rest => (encode_field f ++ String COMMA (join_fields rest))%string
  end.

(** The text of a field: [None] is written as the empty string. *)
Definition field_text (v : pyval) : string :=
  match v with
  | PNone => ""
  | PStr s => s
  end.

(** [writer.writerow]: a row made of one empty field is written as a pair
    of quotes; the line terminator is CR LF. *)
Definition row_text (fields : list string) : string :=
  let body := join_fields fields in
  let body' := match fields, body with
               | _ :: _, EmptyString => String DQUOTE (String DQUOTE "")
               | _, _ => body
               end in
  (body' ++ String CR (String LF ""))%string.

(** [DictWriter._dict_to_list] with [extrasaction='raise'], [restval='']. *)
Definition dict_to_list (fieldnames : list string) (rowdict : dict) : result (list string) :=
  if forallb (fun k => existsb (String.eqb k) fieldnames) (keys rowdict)
  then Ok (map (fun k => field_text (dict_get_default rowdict k (PStr ""))) fieldnames)
  else Raise (ValueError "dict contains fields not in fieldnames").

(** [DictWriter.writerows]: rows reach the file one by one, so the text
    written before a failing row stays in the file. *)
Fixpoint writerows (fieldnames : list string) (records : list dict) : string * option exn :=
  match records with
  | [] => ("", None)
  | rec :: rest =>
      match dict_to_list fieldnames rec with
      | Raise e => ("", Some e)
      | Ok fields =>
          let '(text, err) := writerows fieldnames rest in
          ((row_text fields ++ text)%string, err)
      end
  end.

(** ** The world: files, output streams, the [docx] package *)

(** A saved table document: its headings and the rows of its table. *)
Record document : Type := mkDocument {
  doc_headings : list string;
  doc_table : list (list string)
}.

Inductive node : Type :=
| TextFile (content : string)
| DocxFile (doc : document)
| Dir.

(** What the program does to its environment, in order.  [OpenRead] and
    [OpenWrite] record calls of [open], [SaveDocx] a call of [doc.save]. *)
Inductive event : Type :=
| Stdout (text : string)
| Stderr (text : string)
| OpenRead (path : string)
| OpenWrite (path : string)
| SaveDocx (path : string).

Record world : Type := mkWorld {
  fs : string -> option node;
  (** whether [path] can be created or truncated for writing *)
  writable : string -> bool;
  (** [DOCX_AVAILABLE]: whether [from docx import Document] succeeded *)
  DOCX_AVAILABLE : bool;
  trace : list event
}.

Definition io (A : Type) : Type := world -> result A * world.

Definition ret {A : Type} (a : A) : io A := fun w => (Ok a, w).

Definition raise {A : Type} (e : exn) : io A := fun w => (Raise e, w).

Definition bind {A B : Type} (m : io A) (k : A -> io B) : io B :=
  fun w =>
    match m w with
    | (Ok a, w') => k a w'
    | (Raise e, w') => (Raise e, w')
    end.

Definition lift {A : Type} (r : result A) : io A := fun w => (r, w).

Declare Scope io_scope.
Delimit Scope io_scope with io.
Notation "x <- m ;; k" := (bind m (fun x => k))
  (at level 61, m at next level, right associativity) : io_scope.
Notation "m ;; k" := (bind m (fun _ => k))
  (at level 61, right associativity) : io_scope.

Definition emit (e : event) : io unit :=
  fun w => (Ok tt, mkWorld (fs w) (writable w) (DOCX_AVAILABLE w) (trace w ++ [e])).

Definition set_node (p : string) (n : node) : io unit :=
  fun w => (Ok tt,
            mkWorld (fun q => if String.eqb q p then Some n else fs w q)
                    (writable w) (DOCX_AVAILABLE w) (trace w)).

(** [print(text)] and [print(text, file=sys.stderr)] *)
Definition print (text : string) : io unit := emit (Stdout text).
Definition print_stderr (text : string) : io unit := emit (Stderr text).

(** [Path(p).exists()] *)
Definition path_exists (p : string) : io bool :=
  fun w => (Ok (match fs w p with Some _ => true | None => false end), w).

Definition docx_available : io bool := fun w => (Ok (DOCX_AVAILABLE w), w).

(** The names the module binds at import time (lines 1-10) and by its
    [def] statements.  [sys] is not among them: the script never imports it. *)
Definition module_globals (docx_ok : bool) : list string :=
  ["argparse"; "csv"; "Path"] ++ (if docx_ok then ["Document"] else [])
  ++ ["DOCX_AVAILABLE"; "parse_lhco"; "filter_records"; "write_csv";
      "write_docx"; "main"].

Definition builtins : list string :=
  ["print"; "open"; "len"; "list"; "str"; "enumerate"].

(** Evaluating a global name: [NameError] when neither the module nor the
    builtins bind it. *)
Definition load_global (name : string) : io unit :=
  fun w =>
    if existsb (String.eqb name) (module_globals (DOCX_AVAILABLE w) ++ builtins)
    then (Ok tt, w)
    else (Raise (NameError name), w).

(** [open(path, 'r')] and reading the text. *)
Definition open_read (p : string) : io string :=
  (emit (OpenRead p) ;;
   fun w => match fs w p with
            | Some (TextFile content) => (Ok content, w)
            | Some (DocxFile _) => (Raise (ValueError "UnicodeDecodeError"), w)
            | _ => (Raise (OSError p), w)
            end)%io.

(** [open(path, 'w', newline='')]: the file is created or truncated. *)
Definition open_write (p : string) : io unit :=
  (emit (OpenWrite p) ;;
   fun w => if writable w p then set_node p (TextFile "") w
            else (Raise (OSError p), w))%io.

(** [f.write(text)] on the file opened at [p]. *)
Definition file_write (p : string) (text : string) : io unit :=
  fun w => match fs w p with
           | Some (TextFile content) => set_node p (TextFile (content ++ text)%string) w
           | _ => (Raise (OSError p), w)
           end.

(** ** Reading lines *)

(** Text mode with the default [newline=None]: CR LF and a lone CR are
    read as LF. *)
Fixpoint universal_newlines (s : string) : string :=
  match s with
  | EmptyString => EmptyString
  | String c s' =>
      if Ascii.eqb c CR then
        match s' with
        | String c' s'' =>
            if Ascii.eqb c' LF then String LF (universal_newlines s'')
            else String LF (universal_newlines s')
        | EmptyString => String LF EmptyString
        end
      else String c (universal_newlines s')
  end.

(** Iterating a text file: each line keeps its LF; a last line without a
    terminator is a line too. *)
Fixpoint lines_from (cur : string) (s : string) : list string :=
  match s with
  | EmptyString => match cur with EmptyString => [] | _ => [cur] end
  | String c s' =>
      if Ascii.eqb c LF then (cur ++ String LF "")%string :: lines_from "" s'
      else lines_from (cur ++ String c "")%string s'
  end.

Definition readlines (content : string) : list string :=
  lines_from "" (universal_newlines content).

Definition parse_lhco (file_path : string) : io (list dict) :=
  (content <- open_read file_path ;;
   lift (parse_lines (readlines content)))%io.

(** ** The writers *)

Definition write_csv (records : list dict) (out_path : string) : io unit :=
  match records with
  | [] => print "No records to write."
  | first :: _ =>
      (open_write out_path ;;
       let fieldnames := keys first in
       (* writer.writeheader() *)
       file_write out_path (row_text fieldnames) ;;
       (* writer.writerows(records) *)
       let '(text, err) := writerows fieldnames records in
       file_write out_path text ;;
       match err with
       | Some e => raise e
       | None => print ("CSV written to " ++ out_path)%string
       end)%io
  end.

(** [[str(rec[col]) for col in cols]], one table row. *)
Fixpoint docx_row (rec : dict) (cols : list string) : result (list string) :=
  match cols with
  | [] => Ok []
  | col :: rest =>
      (v <- getitem rec col ;;
       cells <- docx_row rec rest ;;
       Ok (py_str v :: cells))%py
  end.

Fixpoint docx_rows (records : list dict) (cols : list string) : result (list (list string)) :=
  match records with
  | [] => Ok []
  | rec :: rest =>
      (row <- docx_row rec cols ;;
       rows <- docx_rows rest cols ;;
       Ok (row :: rows))%py
  end.

(** [doc.save(out_path)] *)
Definition save_docx (p : string) (doc : document) : io unit :=
  (emit (SaveDocx p) ;;
   fun w => if writable w p then set_node p (DocxFile doc) w
            else (Raise (OSError p), w))%io.

Definition write_docx (records : list dict) (out_path : string) : io unit :=
  (avail <- docx_available ;;
   if negb avail then
     print "Error: python-docx is not installed. Cannot write DOCX."
   else
     match records with
     | [] => print "No records to write."
     | first :: _ =>
         load_global "Document" ;;
         let cols := keys first in
         rows <- lift (docx_rows records cols) ;;
         save_docx out_path (mkDocument ["LHCO Data"] (cols :: rows)) ;;
         print ("DOCX written to " ++ out_path)%string
     end)%io.

(** ** The command line *)

Inductive out_format : Type := csv | docx.

(** The namespace returned by [parser.parse_args()]. *)
Record Args : Type := mkArgs {
  input : string;
  output : string;
  format : out_format;
  particle : option string;
  columns : option (list string)
}.

Definition is_docx (f : out_format) : bool :=
  match f with docx => true | csv => false end.

Definition main (args : Args) : io unit :=
  (let infile := input args in
   found <- path_exists infile ;;
   (if negb found then
      (* print(f"Input file {infile} not found.", file=sys.stderr) *)
      let message := ("Input file " ++ infile ++ " not found.")%string in
      load_global "sys" ;;
      print_stderr message ;;
      (* sys.exit(1) *)
      load_global "sys" ;;
      raise (SystemExit 1)
    else ret tt) ;;
   recs <- parse_lhco infile ;;
   recs <- lift (filter_records recs (particle args) (columns args)) ;;
   (match format args with
    | csv => write_csv recs (output args)
    | docx => write_docx recs (output args)
    end) ;;
   avail <- docx_available ;;
   if is_docx (format args) && negb avail then
     print "Reminder: install python-docx via 'pip install python-docx' to enable DOCX output."
   else ret tt)%io.

(** The last line of the traceback of an uncaught exception. *)
Definition exn_text (e : exn) : string :=
  match e with
  | NameError name => ("NameError: name '" ++ name ++ "' is not defined")%string
  | KeyError key => ("KeyError: '" ++ key ++ "'")%string
  | IndexError => "IndexError: list index out of range"
  | ValueError msg => ("ValueError: " ++ msg)%string
  | OSError path => ("OSError: " ++ path)%string
  | SystemExit _ => ""
  end.

(** Running the script ([if __name__ == '__main__': main()]): the exit
    status of the process and the final world.  [SystemExit] carries the
    status; any other uncaught exception is reported on the error stream by
    the interpreter, which then exits with status 1. *)
Definition run_script (args : Args) (w : world) : Z * world :=
  match main args w with
  | (Ok _, w') => (0%Z, w')
  | (Raise (SystemExit code), w') => (code, w')
  | (Raise e, w') =>
      (1%Z, mkWorld (fs w') (writable w') (DOCX_AVAILABLE w')
                    (trace w' ++ [Stderr ("Traceback (most recent call last): "
                                          ++ exn_text e)%string]))
  end.

(** What reached each stream, and which files were opened or saved. *)
Definition stdout_of (t : list event) : list string :=
  flat_map (fun e => match e with Stdout s => [s] | _ => [] end) t.

Definition stderr_of (t : list event) : list string :=
  flat_map (fun e => match e with Stderr s => [s] | _ => [] end) t.

Definition is_file_event (e : event) : bool :=
  match e with
  | OpenRead _ | OpenWrite _ | SaveDocx _ => true
  | _ => false
  end.

Definition is_write_event (e : event) : bool :=
  match e with
  | OpenWrite _ | SaveDocx _ => true
  | _ => false
  end.

(** ** Reading CSV back: [csv.reader] in the default dialect

    The file is read with [newline=''], as the [csv] module asks: lines end
    at LF, at CR LF or at a lone CR and keep their terminator.  The reader
    is fed the characters of each line and then the end-of-line signal,
    written [None] here. *)

Inductive parser_state : Type :=
| START_RECORD
| START_FIELD
| IN_FIELD
| IN_QUOTED_FIELD
| QUOTE_IN_QUOTED_FIELD
| EAT_CRNL.

Record reader : Type := mkReader {
  state : parser_state;
  field : string;          (* the characters of the field being read *)
  fields : list string     (* the fields of the record being read *)
}.

(** [parse_reset] *)
Definition reset : reader := mkReader START_RECORD "" [].

(** [parse_save_field] *)
Definition save_field (st : parser_state) (r : reader) : reader :=
  mkReader st "" (fields r ++ [field r]).

(** [parse_add_char] *)
Definition add_char (st : parser_state) (r : reader) (c : ascii) : reader :=
  mkReader st (field r ++ String c "")%string (fields r).

Definition set_state (st : parser_state) (r : reader) : reader :=
  mkReader st (field r) (fields r).

Definition is_newline (c : ascii) : bool := Ascii.eqb c LF || Ascii.eqb c CR.

(** The [START_FIELD] case, which [START_RECORD] falls through to. *)
Definition start_field (r : reader) (c : option ascii) : reader :=
  match c with
  | None => save_field START_RECORD r
  | Some ch =>
      if is_newline ch then save_field EAT_CRNL r
      else if Ascii.eqb ch DQUOTE then set_state IN_QUOTED_FIELD r
      else if Ascii.eqb ch COMMA then save_field START_FIELD r
      else add_char IN_FIELD r ch
  end.

(** [parse_process_char] with the comma as delimiter, the double quote as
    quote character, [doublequote] on, no escape character, non-strict. *)
Definition process_char (r : reader) (c : option ascii) : result reader :=
  match state r with
  | START_RECORD =>
      match c with
      | None => Ok r
      | Some ch =>
          if is_newline ch then Ok (set_state EAT_CRNL r)
          else Ok (start_field r c)
      end
  | START_FIELD => Ok (start_field r c)
  | IN_FIELD =>
      match c with
      | None => Ok (save_field START_RECORD r)
      | Some ch =>
          if is_newline ch then Ok (save_field EAT_CRNL r)
          else if Ascii.eqb ch COMMA then Ok (save_field START_FIELD r)
          else Ok (add_char IN_FIELD r ch)
      end
  | IN_QUOTED_FIELD =>
      match c with
      | None => Ok r
      | Some ch =>
          if Ascii.eqb ch DQUOTE then Ok (set_state QUOTE_IN_QUOTED_FIELD r)
          else Ok (add_char IN_QUOTED_FIELD r ch)
      end
  | QUOTE_IN_QUOTED_FIELD =>
      match c with
      | None => Ok (save_field START_RECORD r)
      | Some ch =>
          if Ascii.eqb ch DQUOTE then Ok (add_char IN_QUOTED_FIELD r ch)
          else if Ascii.eqb ch COMMA then Ok (save_field START_FIELD r)
          else if is_newline ch then Ok (save_field EAT_CRNL r)
          else Ok (add_char IN_FIELD r ch)
      end
  | EAT_CRNL =>
      match c with
      | None => Ok (set_state START_RECORD r)
      | Some ch =>
          if is_newline ch then Ok r
          else Raise (ValueError "new-line character seen in unquoted field")
      end
  end.

(** Whether a line ends after the character [c] followed by [rest]. *)
Definition line_ends_after (c : ascii) (rest : string) : bool :=
  if Ascii.eqb c LF then true
  else match rest with
       | EmptyString => true
       | String c' _ => Ascii.eqb c CR && negb (Ascii.eqb c' LF)
       end.

(** The characters of a text as the reader receives them, with the
    end-of-line signal after each line. *)
Fixpoint reader_input (s : string) : list (option ascii) :=
  match s with
  | EmptyString => []
  | String c s' =>
      if line_ends_after c s' then Some c :: None :: reader_input s'
      else Some c :: reader_input s'
  end.

Definition is_start_record (st : parser_state) : bool :=
  match st with START_RECORD => true | _ => false end.

Definition is_in_quoted (st : parser_state) : bool :=
  match st with IN_QUOTED_FIELD => true | _ => false end.

(** The rows the reader yields.  A record is complete when the state is
    [START_RECORD] after an end of line; at the end of the input a pending
    field or an open quoted field still makes a record. *)
Fixpoint read_rows (r : reader) (inp : list (option ascii)) : result (list (list string)) :=
  match inp with
  | [] =>
      if negb (String.eqb (field r) "") || is_in_quoted (state r)
      then Ok [fields (save_field START_RECORD r)]
      else Ok []
  | c :: rest =>
      (r' <- process_char r c ;;
       match c with
       | None =>
           if is_start_record (state r')
           then (rows <- read_rows reset rest ;; Ok (fields r' :: rows))
           else read_rows r' rest
       | Some _ => read_rows r' rest
       end)%py
  end.

Definition csv_reader (text : string) : result (list (list string)) :=
  read_rows reset (reader_input text).

(** ** The vocabulary of the specification

    Line shapes as the specification words them, to be compared with what
    [parse_line] does. *)

(** A header line: exactly three tokens, the first a string of digits in
    the sense of [str.isdigit]. *)
Definition header_line (raw : string) : bool :=
  match split raw with
  | [t0; _; _] => isdigit t0
  | _ => false
  end.

(** The narrower reading: the first token made of the decimal digits 0 to
    9 only. *)
Definition decimal_digit (c : ascii) : bool :=
  any_char (Ascii.eqb c) "0123456789".

Definition decimal_header_line (raw : string) : bool :=
  match split raw with
  | [t0; _; _] => all_chars decimal_digit t0
  | _ => false
  end.

(** The event identifier a header line carries: its second token. *)
Definition header_event (raw : string) : pyval :=
  match split raw with
  | [_; t1; _] => PStr t1
  | _ => PNone
  end.

(** An object line: nine tokens or more. *)
Definition object_line (raw : string) : bool := 9 <=? length (split raw).

(** The event identifier in force after the lines [preceding]: the one of
    the most recent header line, null when there is none. *)
Definition last_header_event (preceding : list string) : pyval :=
  match find header_line (rev preceding) with
  | Some h => header_event h
  | None => PNone
  end.

(** The same under the narrower reading of a header line. *)
Definition last_decimal_header_event (preceding : list string) : pyval :=
  match find decimal_header_line (rev preceding) with
  | Some h => header_event h
  | None => PNone
  end.

(** A full record: the event and the nine columns. *)
Definition lhco_record (event : pyval) (idx typ eta phi pt jmas ntrk btag hadem : string) : dict :=
  [("event", event); ("idx", PStr idx); ("typ", PStr typ); ("eta", PStr eta);
   ("phi", PStr phi); ("pt", PStr pt); ("jmas", PStr jmas);
   ("ntrk", PStr ntrk); ("btag", PStr btag); ("hadem", PStr hadem)].

Definition all_fields : list string :=
  ["event"; "idx"; "typ"; "eta"; "phi"; "pt"; "jmas"; "ntrk"; "btag"; "hadem"].

(** The effect of one line on the loop state, as two pure functions. *)
Definition next_event (event_id : pyval) (raw : string) : pyval :=
  if header_line raw then header_event raw else event_id.

Definition emitted (event_id : pyval) (raw : string) : list dict :=
  match split raw with
  | t0 :: t1 :: t2 :: t3 :: t4 :: t5 :: t6 :: t7 :: t8 :: _ =>
      [lhco_record event_id t0 t1 t2 t3 t4 t5 t6 t7 t8]
  | _ => []
  end.

Fixpoint records_from (event_id : pyval) (lines : list string) : list dict :=
  match lines with
  | [] => []
  | raw :: rest => emitted event_id raw ++ records_from (next_event event_id raw) rest
  end.

(** ** A sample run *)

Definition unlines (lines : list string) : string :=
  fold_right (fun l acc => (l ++ String LF acc)%string) "" lines.

Definition sample_lines : list string :=
  ["0   77   0";
   "0   2   1.5   0.3   45.2   0   0   0   0   extra";
   "x   78   0";
   "1   6   0   0   0   0   0   0   0"].

(** A file whose second line starts with a superscript two: three tokens,
    the first a digit for [str.isdigit] and no decimal digit. *)
Definition superscript_lines : list string :=
  ["0 77 0"; String "178"%char " 99 0"; "1 2 3 4 5 6 7 8 9"].

Definition superscript_world : world :=
  mkWorld (fun p => if String.eqb p "events.lhco"
                    then Some (TextFile (unlines superscript_lines)) else None)
          (fun _ => true) false [].

(** A world with one LHCO file, where every path can be written and the
    [docx] package is missing. *)
Definition sample_world : world :=
  mkWorld (fun p => if String.eqb p "events.lhco"
                    then Some (TextFile (unlines sample_lines)) else None)
          (fun _ => true) false [].

(** ** The vocabulary of the filter *)

(** A record of the data model: the event and the nine columns, in order. *)
Definition is_record (d : dict) : Prop := keys d = all_fields.

(** The [typ] field is the string [p]. *)
Definition typ_is (p : string) (d : dict) : bool :=
  match dict_get d "typ" with
  | Some (PStr t) => String.eqb t p
  | _ => false
  end.

(** The records a particle filter keeps; no filter keeps them all. *)
Definition matches (particle : option string) (d : dict) : bool :=
  match particle with
  | None => true
  | Some p => typ_is p d
  end.

(** A list without its repetitions, each element at its first place;
    [seen] holds what came before. *)
Fixpoint dedup_from (seen : list string) (l : list string) : list string :=
  match l with
  | [] => []
  | x :: rest =>
      if existsb (String.eqb x) seen then dedup_from seen rest
      else x :: dedup_from (seen ++ [x]) rest
  end.

Definition dedup (l : list string) : list string := dedup_from [] l.

(** The keys of a reduced record: event, then the requested columns that
    the record has, in the order requested. *)
Definition reduced_keys (rec : dict) (columns : list string) : list string :=
  dedup ("event" :: filter (dict_mem rec) columns).

Definition entry (rec : dict) (k : string) : string * pyval :=
  (k, dict_get_default rec k PNone).

(** The reduced record: those keys with the values the record gives them. *)
Definition reduced (rec : dict) (columns : list string) : dict :=
  map (entry rec) (reduced_keys rec columns).

(** What becomes of a retained record: reduced under a non-empty column
    list, itself otherwise. *)
Definition shape (columns : option (list string)) (rec : dict) : dict :=
  match columns with
  | Some (c :: cs) => reduced rec (c :: cs)
  | _ => rec
  end.

(** Three records as the reader emits them; the second has typ 02, the
    third precedes any header. *)
Definition sample_records : list dict :=
  [lhco_record (PStr "77") "0" "2" "1.5" "0.3" "45.2" "0" "0" "0" "0";
   lhco_record (PStr "77") "1" "02" "0.1" "0.2" "12.0" "0" "0" "0" "0";
   lhco_record PNone "2" "6" "0" "0" "0" "0" "0" "0" "0"].

(** The column names a full record has. *)
Definition known_column (k : string) : bool :=
  existsb (String.eqb k) all_fields.

(** ** The vocabulary of the runs *)

(** The world [w] after the events [es], with its files untouched. *)
Definition after (w : world) (es : list event) : world :=
  mkWorld (fs w) (writable w) (DOCX_AVAILABLE w) (trace w ++ es).

Definition no_records_message : string := "No records to write.".

Definition docx_missing_message : string :=
  "Error: python-docx is not installed. Cannot write DOCX.".

Definition reminder_message : string :=
  "Reminder: install python-docx via 'pip install python-docx' to enable DOCX output.".

Definition sys_traceback : string :=
  "Traceback (most recent call last): NameError: name 'sys' is not defined".

(** ** The vocabulary of the CSV round trip *)

(** The cells of the row that [DictWriter] writes for a record. *)
Definition row_values (fieldnames : list string) (rec : dict) : list string :=
  map (fun k => field_text (dict_get_default rec k (PStr ""))) fieldnames.

(** The text of a sequence of rows. *)
Fixpoint rows_text (rows : list (list string)) : string :=
  match rows with
  | [] => ""
  | row :: rest => (row_text row ++ rows_text rest)%string
  end.

(** Two reduced records; one value holds the delimiter, one a quote and a
    line end, and one event is null. *)
Definition csv_first : dict :=
  [("event", PStr "77"); ("pt", PStr "45.2"); ("note", PStr "a,b")].

Definition csv_second : dict :=
  [("event", PNone); ("pt", PStr "1");
   ("note", PStr (String DQUOTE (String LF "x")))].

(** ** The vocabulary of the further properties *)

(** A token: not empty, and free of whitespace. *)
Definition is_token (t : string) : bool :=
  negb (String.eqb t "") && negb (any_char isspace t).

(** The nine columns of an object line. *)
Definition object_columns : list string :=
  ["idx"; "typ"; "eta"; "phi"; "pt"; "jmas"; "ntrk"; "btag"; "hadem"].

(** The keys every record has after [filter_records], given the column
    list: the ten fields, or event and the known requested columns. *)
Definition shape_keys (columns : option (list string)) : list string :=
  match columns with
  | Some (c :: cs) => dedup ("event" :: filter known_column (c :: cs))
  | _ => all_fields
  end.

(** A record has a key that is not among [fieldnames]. *)
Definition has_extra_key (fieldnames : list string) (rec : dict) : bool :=
  negb (forallb (fun k => existsb (String.eqb k) fieldnames) (keys rec)).

(** The cells of the table row of a record: [str] of each value. *)
Definition docx_values (cols : list string) (rec : dict) : list string :=
  map (fun k => py_str (dict_get_default rec k PNone)) cols.

(** Text made of the printable ASCII characters, space to tilde. *)
Definition printable (s : string) : bool :=
  all_chars (fun c => (32 <=? nat_of_ascii c) && (nat_of_ascii c <=? 126)) s.

(** A record whose keys and cell texts are all printable. *)
Definition printable_record (rec : dict) : bool :=
  forallb (fun kv => printable (fst kv) && printable (py_str (snd kv))) rec.

(** A record lacks one of the columns [cols]. *)
Definition lacks_column (cols : list string) (rec : dict) : bool :=
  negb (forallb (dict_mem rec) cols).

(** The sample world with the [docx] package installed. *)
Definition docx_world : world :=
  mkWorld (fs sample_world) (writable sample_world) true [].

(** A world where the path [events] is a directory. *)
Definition dir_world : world :=
  mkWorld (fun p => if String.eqb p "events" then Some Dir else None)
          (fun _ => true) false [].

(** * Properties of the reader *)

Section Tokens.

Lemma decimal_digit_isdigit (c : ascii) :
  decimal_digit c = true -> isdigit_char c = true.
Proof.
  destruct c as [[] [] [] [] [] [] [] []]; intros H;
    solve [reflexivity | discriminate H].
Qed.

Lemma all_chars_ext (p q : ascii -> bool) (s : string) :
  (forall c, p c = q c) -> all_chars p s = all_chars q s.
Proof.
  intros Hpq. induction s as [|c s IH]; simpl; [reflexivity|].
  now rewrite Hpq, IH.
Qed.

Lemma append_char_nonempty (s : string) (c : ascii) :
  (s ++ String c "")%string <> "".
Proof. destruct s; discriminate. Qed.

(** [split] never yields an empty token. *)
Lemma split_from_nonempty (s cur : string) :
  Forall (fun t => t <> "") (split_from cur s).
Proof.
  revert cur. induction s as [|c s IH]; intros cur; simpl.
  - destruct cur; constructor; [discriminate | constructor].
  - destruct (isspace c).
    + destruct cur; [apply IH|].
      constructor; [discriminate | apply IH].
    + apply IH.
Qed.

Lemma split_nonempty (raw : string) : Forall (fun t => t <> "") (split raw).
Proof. apply split_from_nonempty. Qed.

Lemma isdigit_decimal (t : string) :
  t <> "" -> all_chars decimal_digit t = true -> isdigit t = true.
Proof.
  intros Ht Hdec. destruct t as [|c t]; [congruence|].
  unfold isdigit. revert Hdec. generalize (String c t). clear.
  induction s as [|c s IH]; cbn [all_chars]; [reflexivity|].
  intros H. apply andb_prop in H as [Hc Hs].
  now rewrite (decimal_digit_isdigit c Hc), (IH Hs).
Qed.

(** A header line in the narrower reading is a header line. *)
Lemma decimal_header_is_header (raw : string) :
  decimal_header_line raw = true -> header_line raw = true.
Proof.
  unfold decimal_header_line, header_line.
  pose proof (split_nonempty raw) as Hne.
  destruct (split raw) as [|t0 [|t1 [|t2 [|t3 rest]]]]; try discriminate.
  inversion Hne as [|? ? Ht0 _]; subst. now apply isdigit_decimal.
Qed.

End Tokens.

Section Reader.

Lemma parse_line_spec (event_id : pyval) (records : list dict) (raw : string) :
  parse_line (event_id, records) raw
  = Ok (next_event event_id raw, records ++ emitted event_id raw).
Proof.
  unfold parse_line, next_event, emitted, header_line, header_event, is_header.
  pose proof (split_nonempty raw) as Hne.
  destruct (split raw)
    as [|t0 [|t1 [|t2 [|t3 [|t4 [|t5 [|t6 [|t7 [|t8 extra]]]]]]]]];
    simpl; rewrite ?app_nil_r; try reflexivity.
  destruct (isdigit t0); simpl; now rewrite ?app_nil_r.
Qed.

Lemma parse_loop_spec (lines : list string) :
  forall event_id records,
    parse_loop (event_id, records) lines
    = Ok (fold_left next_event lines event_id,
          records ++ records_from event_id lines).
Proof.
  induction lines as [|raw rest IH]; intros event_id records;
    cbn [parse_loop fold_left records_from].
  - now rewrite app_nil_r.
  - rewrite parse_line_spec. cbn [rbind]. rewrite IH. now rewrite <- app_assoc.
Qed.

Lemma parse_lines_spec (lines : list string) :
  parse_lines lines = Ok (records_from PNone lines).
Proof.
  unfold parse_lines. now rewrite parse_loop_spec.
Qed.

Lemma records_from_app (pre post : list string) :
  forall event_id,
    records_from event_id (pre ++ post)
    = records_from event_id pre
      ++ records_from (fold_left next_event pre event_id) post.
Proof.
  induction pre as [|raw pre IH]; intros event_id; simpl; [reflexivity|].
  now rewrite IH, app_assoc.
Qed.

Lemma emitted_object (event_id : pyval) (raw : string) :
  object_line raw = true ->
  exists r, emitted event_id raw = [r]
            /\ dict_get r "event" = Some event_id
            /\ next_event event_id raw = event_id.
Proof.
  unfold object_line, emitted, next_event, header_line.
  destruct (split raw)
    as [|t0 [|t1 [|t2 [|t3 [|t4 [|t5 [|t6 [|t7 [|t8 extra]]]]]]]]];
    simpl; try discriminate.
  intros _. eexists; repeat split.
Qed.

Lemma emitted_not_object (event_id : pyval) (raw : string) :
  object_line raw = false -> emitted event_id raw = [].
Proof.
  unfold object_line, emitted.
  destruct (split raw)
    as [|t0 [|t1 [|t2 [|t3 [|t4 [|t5 [|t6 [|t7 [|t8 extra]]]]]]]]];
    simpl; try reflexivity; discriminate.
Qed.

Lemma header_not_object (raw : string) :
  header_line raw = true -> object_line raw = false.
Proof.
  unfold header_line, object_line.
  destruct (split raw) as [|t0 [|t1 [|t2 [|t3 rest]]]]; try discriminate.
  reflexivity.
Qed.

(** The event identifier after a prefix is the one of its last header. *)
Lemma fold_next_event (pre : list string) :
  forall event_id,
    fold_left next_event pre event_id
    = match find header_line (rev pre) with
      | Some h => header_event h
      | None => event_id
      end.
Proof.
  induction pre as [|raw pre IH] using rev_ind; intros event_id; [reflexivity|].
  rewrite fold_left_app, rev_app_distr. simpl. unfold next_event at 1.
  destruct (header_line raw); [reflexivity | apply IH].
Qed.

Lemma records_from_length (lines : list string) :
  forall event_id,
    length (records_from event_id lines) = length (filter object_line lines).
Proof.
  induction lines as [|raw rest IH]; intros event_id; simpl; [reflexivity|].
  rewrite length_app, IH.
  destruct (object_line raw) eqn:Hobj.
  - destruct (emitted_object event_id raw Hobj) as (r & -> & _). reflexivity.
  - now rewrite emitted_not_object.
Qed.

Lemma records_from_nth (lines : list string) :
  forall event_id j r,
    nth_error (records_from event_id lines) j = Some r ->
    exists pre raw post,
      lines = pre ++ raw :: post
      /\ object_line raw = true
      /\ length (filter object_line pre) = j
      /\ dict_get r "event" = Some (fold_left next_event pre event_id).
Proof.
  induction lines as [|raw rest IH]; intros event_id j r Hnth; simpl in Hnth.
  - destruct j; discriminate.
  - destruct (object_line raw) eqn:Hobj.
    + destruct (emitted_object event_id raw Hobj) as (r0 & He & Hev & Hnext).
      rewrite He, Hnext in Hnth. destruct j as [|j]; simpl in Hnth.
      * injection Hnth as <-. exists [], raw, rest. repeat split; assumption.
      * destruct (IH _ _ _ Hnth) as (pre & raw' & post & -> & Hobj' & Hlen & Hget).
        exists (raw :: pre), raw', post. simpl. rewrite Hobj, Hnext. simpl.
        repeat split; auto.
    + rewrite (emitted_not_object _ _ Hobj) in Hnth. simpl in Hnth.
      destruct (IH _ _ _ Hnth) as (pre & raw' & post & -> & Hobj' & Hlen & Hget).
      exists (raw :: pre), raw', post. simpl. rewrite Hobj.
      repeat split; auto.
Qed.

(** Opening a readable text file and parsing it. *)
Lemma parse_lhco_readable (w : world) (file_path content : string) :
  fs w file_path = Some (TextFile content) ->
  fst (parse_lhco file_path w) = parse_lines (readlines content).
Proof.
  intros Hfs. unfold parse_lhco, open_read, bind, emit, lift. simpl.
  now rewrite Hfs.
Qed.

End Reader.

Section ReaderClaims.

(** C2. A line with at least nine whitespace-separated tokens makes
    [parse_lhco] emit exactly one record: its fields idx, typ, eta, phi,
    pt, jmas, ntrk, btag, hadem are the first nine tokens in that order,
    the tokens after the ninth are ignored, and nothing is raised.  Stated
    for one iteration of the loop, and for the line inside a file: the
    records of the file are those of the file without the line, with the
    one record inserted at the line's place. *)
Theorem parse_lhco_object_line
    (raw t0 t1 t2 t3 t4 t5 t6 t7 t8 : string) (extra : list string) :
  split raw = t0 :: t1 :: t2 :: t3 :: t4 :: t5 :: t6 :: t7 :: t8 :: extra ->
  (forall event_id records,
      parse_line (event_id, records) raw
      = Ok (event_id,
            records ++ [lhco_record event_id t0 t1 t2 t3 t4 t5 t6 t7 t8]))
  /\ (forall w file_path content pre post,
        fs w file_path = Some (TextFile content) ->
        readlines content = pre ++ raw :: post ->
        exists earlier later,
          parse_lines (pre ++ post) = Ok (earlier ++ later)
          /\ fst (parse_lhco file_path w)
             = Ok (earlier
                   ++ lhco_record (last_header_event pre)
                        t0 t1 t2 t3 t4 t5 t6 t7 t8
                   :: later)).
Proof.
  intros Hsplit.
  assert (Hem : forall ev,
             emitted ev raw = [lhco_record ev t0 t1 t2 t3 t4 t5 t6 t7 t8])
    by (intros ev; unfold emitted; now rewrite Hsplit).
  assert (Hnext : forall ev, next_event ev raw = ev)
    by (intros ev; unfold next_event, header_line; now rewrite Hsplit).
  split.
  - intros event_id records. now rewrite parse_line_spec, Hem, Hnext.
  - intros w file_path content pre post Hfs Hlines.
    exists (records_from PNone pre),
           (records_from (last_header_event pre) post).
    rewrite (parse_lhco_readable _ _ _ Hfs), Hlines, !parse_lines_spec.
    rewrite !records_from_app. cbn [records_from].
    rewrite Hem, Hnext. unfold last_header_event.
    rewrite !fold_next_event. split; reflexivity.
Qed.

Lemma parse_lhco_object_line_witness :
  split "0   2   1.5   0.3   45.2   0   0   0   0   extra"
  = ["0"; "2"; "1.5"; "0.3"; "45.2"; "0"; "0"; "0"; "0"; "extra"]
  /\ parse_line (PStr "77", []) "0   2   1.5   0.3   45.2   0   0   0   0   extra"
     = Ok (PStr "77",
           [lhco_record (PStr "77") "0" "2" "1.5" "0.3" "45.2" "0" "0" "0" "0"]).
Proof.
  split; [reflexivity|].
  exact (proj1 (parse_lhco_object_line
                  "0   2   1.5   0.3   45.2   0   0   0   0   extra"
                  "0" "2" "1.5" "0.3" "45.2" "0" "0" "0" "0" ["extra"]
                  eq_refl) (PStr "77") []).
Defined.

(** C3, as the code has it.  Every record that [parse_lhco] emits for a
    file comes from an object line of the file, in file order, and its
    event field is the second token of the most recent header line before
    that line, or null when no header line precedes it; a header line
    emits no record.  A header line is a line of exactly three tokens
    whose first token passes [str.isdigit]: every line whose first token
    is made of the decimal digits 0 to 9 is one, and so is a line whose
    first token holds other digit characters, such as a superscript
    two. *)
Theorem parse_lhco_event_tag (w : world) (file_path content : string) :
  fs w file_path = Some (TextFile content) ->
  exists recs,
    fst (parse_lhco file_path w) = Ok recs
    /\ length recs = length (filter object_line (readlines content))
    /\ (forall j r,
          nth_error recs j = Some r ->
          exists pre raw post,
            readlines content = pre ++ raw :: post
            /\ object_line raw = true
            /\ length (filter object_line pre) = j
            /\ getitem r "event" = Ok (last_header_event pre))
    /\ (forall raw event_id records,
          header_line raw = true ->
          object_line raw = false
          /\ parse_line (event_id, records) raw = Ok (header_event raw, records))
    /\ (forall raw, decimal_header_line raw = true -> header_line raw = true).
Proof.
  intros Hfs. exists (records_from PNone (readlines content)).
  rewrite (parse_lhco_readable _ _ _ Hfs), parse_lines_spec.
  split; [reflexivity|]. split; [apply records_from_length|]. split; [|split].
  - intros j r Hnth.
    destruct (records_from_nth _ _ _ _ Hnth)
      as (pre & raw & post & Hl & Hobj & Hlen & Hget).
    exists pre, raw, post. repeat split; try assumption.
    unfold getitem, last_header_event. rewrite Hget.
    now rewrite fold_next_event.
  - intros raw event_id records Hhdr.
    split; [now apply header_not_object|].
    rewrite parse_line_spec. unfold next_event. rewrite Hhdr.
    rewrite emitted_not_object by now apply header_not_object.
    now rewrite app_nil_r.
  - apply decimal_header_is_header.
Qed.

Lemma parse_lhco_event_tag_witness :
  exists recs,
    fst (parse_lhco "events.lhco" sample_world) = Ok recs
    /\ length recs
       = length (filter object_line (readlines (unlines sample_lines)))
    /\ (forall j r,
          nth_error recs j = Some r ->
          exists pre raw post,
            readlines (unlines sample_lines) = pre ++ raw :: post
            /\ object_line raw = true
            /\ length (filter object_line pre) = j
            /\ getitem r "event" = Ok (last_header_event pre))
    /\ (forall raw event_id records,
          header_line raw = true ->
          object_line raw = false
          /\ parse_line (event_id, records) raw = Ok (header_event raw, records))
    /\ (forall raw, decimal_header_line raw = true -> header_line raw = true).
Proof.
  exact (parse_lhco_event_tag sample_world "events.lhco"
           (unlines sample_lines) eq_refl).
Defined.

(** C3 as stated fails.  In the file of three lines [0 77 0], then a
    superscript two followed by [99 0], then [1 2 3 4 5 6 7 8 9], the only
    line of three tokens whose first token is made of decimal digits is
    the first, with second token 77; the record of the third line carries
    the event 99, the second token of the second line. *)
Lemma parse_lhco_decimal_header_counterexample :
  fst (parse_lhco "events.lhco" superscript_world)
  = Ok [lhco_record (PStr "99") "1" "2" "3" "4" "5" "6" "7" "8" "9"]
  /\ map decimal_header_line (readlines (unlines superscript_lines))
     = [true; false; false]
  /\ map object_line (readlines (unlines superscript_lines))
     = [false; false; true]
  /\ last_decimal_header_event
       (firstn 2 (readlines (unlines superscript_lines)))
     = PStr "77"
  /\ pyval_eqb (PStr "99") (PStr "77") = false.
Proof. repeat split. Qed.



End ReaderClaims.

(** * Properties of the filter *)

Section Filter.

Lemma setitem_seen (rec : dict) (c : string) (v : pyval) (seen : list string) :
  dict_get rec c = Some v ->
  existsb (String.eqb c) seen = true ->
  setitem (map (entry rec) seen) c v = map (entry rec) seen.
Proof.
  intros Hget. induction seen as [|k seen IH]; simpl; [discriminate|].
  rewrite (String.eqb_sym k c).
  destruct (String.eqb_spec c k) as [->|Hne]; simpl.
  - intros _. unfold entry, dict_get_default. now rewrite Hget.
  - intros Hin. now rewrite IH.
Qed.

Lemma setitem_new (rec : dict) (c : string) (v : pyval) (seen : list string) :
  dict_get rec c = Some v ->
  existsb (String.eqb c) seen = false ->
  setitem (map (entry rec) seen) c v = map (entry rec) (seen ++ [c]).
Proof.
  intros Hget. induction seen as [|k seen IH]; simpl.
  - intros _. unfold entry, dict_get_default. now rewrite Hget.
  - rewrite (String.eqb_sym k c).
    destruct (String.eqb c k); simpl; [discriminate|].
    intros Hin. now rewrite IH.
Qed.

(** The loop over the requested columns, from a dict that already holds
    the keys [seen] with the record's values. *)
Lemma select_columns_spec (rec : dict) (columns : list string) :
  forall seen,
    select_columns rec (map (entry rec) seen) columns
    = Ok (map (entry rec)
              (seen ++ dedup_from seen (filter (dict_mem rec) columns))).
Proof.
  induction columns as [|c rest IH]; intros seen; simpl.
  - now rewrite app_nil_r.
  - unfold dict_mem at 1 2, getitem.
    destruct (dict_get rec c) as [v|] eqn:Hget; simpl; [|apply IH].
    destruct (existsb (String.eqb c) seen) eqn:Hseen.
    + rewrite (setitem_seen _ _ _ _ Hget Hseen). apply IH.
    + rewrite (setitem_new _ _ _ _ Hget Hseen), IH.
      now rewrite <- app_assoc.
Qed.

Lemma is_record_inv (d : dict) :
  is_record d ->
  exists v0 v1 v2 v3 v4 v5 v6 v7 v8 v9,
    d = [("event", v0); ("idx", v1); ("typ", v2); ("eta", v3); ("phi", v4);
         ("pt", v5); ("jmas", v6); ("ntrk", v7); ("btag", v8); ("hadem", v9)].
Proof.
  unfold is_record, keys, all_fields. intros H.
  repeat (destruct d as [|[? ?] d]; simpl in H; [discriminate|];
          injection H as <- H).
  destruct d; [|discriminate].
  repeat eexists.
Qed.

Lemma filter_one_spec (particle : option string) (columns : option (list string))
    (rec : dict) :
  is_record rec ->
  filter_one particle columns rec
  = Ok (if matches particle rec then Some (shape columns rec) else None).
Proof.
  intros Hrec.
  destruct (is_record_inv _ Hrec)
    as (v0 & v1 & v2 & v3 & v4 & v5 & v6 & v7 & v8 & v9 & ->).
  assert (Hkeep :
            match particle with
            | None => Ok true
            | Some p =>
                rbind (getitem [("event", v0); ("idx", v1); ("typ", v2);
                                ("eta", v3); ("phi", v4); ("pt", v5);
                                ("jmas", v6); ("ntrk", v7); ("btag", v8);
                                ("hadem", v9)] "typ")
                      (fun typ => Ok (pyval_eqb typ (PStr p)))
            end
            = Ok (matches particle
                    [("event", v0); ("idx", v1); ("typ", v2); ("eta", v3);
                     ("phi", v4); ("pt", v5); ("jmas", v6); ("ntrk", v7);
                     ("btag", v8); ("hadem", v9)])).
  { destruct particle as [p|]; [|reflexivity].
    unfold matches, typ_is. simpl. destruct v2; reflexivity. }
  unfold filter_one. rewrite Hkeep. cbn [rbind].
  destruct (matches particle _); [|reflexivity].
  destruct columns as [[|c cs]|]; try reflexivity.
  unfold shape, reduced, reduced_keys, dedup.
  change (getitem _ "event") with (Ok (A := pyval) v0). cbn [rbind].
  change [("event", v0)]
    with (map (entry [("event", v0); ("idx", v1); ("typ", v2); ("eta", v3);
                      ("phi", v4); ("pt", v5); ("jmas", v6); ("ntrk", v7);
                      ("btag", v8); ("hadem", v9)]) ["event"]).
  rewrite select_columns_spec. reflexivity.
Qed.

Lemma filter_loop_spec (particle : option string) (columns : option (list string))
    (records : list dict) :
  Forall is_record records ->
  forall out,
    filter_loop particle columns out records
    = Ok (out ++ map (shape columns) (filter (matches particle) records)).
Proof.
  induction 1 as [|rec rest Hrec _ IH]; intros out; cbn [filter_loop filter map].
  - now rewrite app_nil_r.
  - rewrite (filter_one_spec _ _ _ Hrec). cbn [rbind].
    destruct (matches particle rec); cbn [map]; rewrite IH; [|reflexivity].
    now rewrite <- app_assoc.
Qed.

Lemma filter_records_spec (particle : option string) (columns : option (list string))
    (records : list dict) :
  Forall is_record records ->
  filter_records records particle columns
  = Ok (map (shape columns) (filter (matches particle) records)).
Proof.
  intros H. unfold filter_records. now rewrite filter_loop_spec.
Qed.

(** The records the reader emits are records of the data model. *)
Lemma records_from_is_record (lines : list string) :
  forall event_id, Forall is_record (records_from event_id lines).
Proof.
  induction lines as [|raw rest IH]; intros event_id; simpl; [constructor|].
  apply Forall_app. split; [|apply IH].
  unfold emitted.
  destruct (split raw)
    as [|t0 [|t1 [|t2 [|t3 [|t4 [|t5 [|t6 [|t7 [|t8 extra]]]]]]]]];
    repeat constructor.
Qed.

End Filter.

Section FilterClaims.

Lemma map_shape_none (l : list dict) : map (shape None) l = l.
Proof. induction l as [|d l IH]; simpl; [reflexivity | now rewrite IH]. Qed.

Lemma typ_is_spec (p : string) (d : dict) :
  typ_is p d = true <-> dict_get d "typ" = Some (PStr p).
Proof.
  unfold typ_is. destruct (dict_get d "typ") as [[|t]|]; split;
    try discriminate.
  - intros H. apply String.eqb_eq in H. now subst.
  - intros H. injection H as ->. apply String.eqb_refl.
Qed.

Lemma keys_map_entry (rec : dict) (l : list string) :
  keys (map (entry rec) l) = l.
Proof.
  unfold keys. rewrite map_map. simpl. apply map_id.
Qed.

Lemma dict_mem_keys (d : dict) (k : string) :
  dict_mem d k = existsb (String.eqb k) (keys d).
Proof.
  unfold dict_mem. induction d as [|[k' v] d IH]; simpl; [reflexivity|].
  rewrite (String.eqb_sym k k'). destruct (String.eqb k' k); [reflexivity|].
  exact IH.
Qed.

Lemma dedup_from_In (l : list string) :
  forall seen k, In k (dedup_from seen l) -> In k l.
Proof.
  induction l as [|x l IH]; intros seen k; simpl; [tauto|].
  destruct (existsb (String.eqb x) seen).
  - intros H. right. eapply IH, H.
  - intros [H|H]; [now left | right; eapply IH, H].
Qed.

Lemma existsb_eqb_false (x : string) (seen : list string) :
  ~ In x seen -> existsb (String.eqb x) seen = false.
Proof.
  intros Hn. destruct (existsb (String.eqb x) seen) eqn:E; [|reflexivity].
  apply existsb_exists in E as (y & Hy & Heq).
  apply String.eqb_eq in Heq. subst. contradiction.
Qed.

Lemma dedup_from_nodup (l : list string) :
  NoDup l ->
  forall seen, (forall x, In x l -> ~ In x seen) -> dedup_from seen l = l.
Proof.
  induction 1 as [|x l Hx Hnd IH]; intros seen Hseen; simpl; [reflexivity|].
  rewrite existsb_eqb_false by (apply Hseen; now left).
  f_equal. apply IH. intros y Hy Hin.
  apply in_app_or in Hin as [Hin|[->|[]]].
  - apply (Hseen y); [now right | exact Hin].
  - contradiction.
Qed.

Lemma dict_get_map_entry (rec : dict) (l : list string) (k : string) :
  In k l -> dict_get (map (entry rec) l) k = Some (dict_get_default rec k PNone).
Proof.
  induction l as [|x l IH]; simpl; [tauto|].
  destruct (String.eqb_spec x k) as [->|Hne]; [reflexivity|].
  intros [H|H]; [contradiction | now apply IH].
Qed.

(** C5. With a particle filter, [filter_records] keeps exactly the records
    whose [typ] field is string-equal to the filter value, in input order
    (each then shaped by the column list, if any); a record with typ "02"
    is dropped by the filter "2". *)
Theorem filter_records_particle
    (records : list dict) (p : string) (columns : option (list string)) :
  Forall is_record records ->
  filter_records records (Some p) columns
  = Ok (map (shape columns) (filter (typ_is p) records))
  /\ filter_records records (Some p) None = Ok (filter (typ_is p) records)
  /\ (forall d, typ_is p d = true <-> dict_get d "typ" = Some (PStr p))
  /\ (forall event idx eta phi pt jmas ntrk btag hadem,
        filter_records
          [lhco_record event idx "02" eta phi pt jmas ntrk btag hadem]
          (Some "2") columns
        = Ok []).
Proof.
  intros Hrec. split; [|split; [|split]].
  - now rewrite filter_records_spec.
  - rewrite filter_records_spec by assumption. now rewrite map_shape_none.
  - intros d. apply typ_is_spec.
  - intros. rewrite filter_records_spec by (repeat constructor). reflexivity.
Qed.

Lemma filter_records_particle_witness :
  Forall is_record sample_records
  /\ filter_records sample_records (Some "2") None
     = Ok [lhco_record (PStr "77") "0" "2" "1.5" "0.3" "45.2" "0" "0" "0" "0"].
Proof.
  assert (H : Forall is_record sample_records) by (repeat constructor).
  split; [exact H|].
  exact (proj1 (proj2 (filter_records_particle sample_records "2" None H))).
Defined.

(** C6. With a non-empty column list, each retained record is replaced by
    a reduced record: its keys are event first, then the requested columns
    that are fields of the record, in the order requested (a column asked
    twice, or event asked again, keeps its first place), each with the
    record's value; unknown names are ignored.  Asking for pt, eta,
    nonexistent gives the keys event, pt, eta. *)
Theorem filter_records_columns
    (records : list dict) (particle : option string) (c : string) (cs : list string) :
  Forall is_record records ->
  filter_records records particle (Some (c :: cs))
  = Ok (map (fun rec => reduced rec (c :: cs)) (filter (matches particle) records))
  /\ (forall rec,
        is_record rec ->
        keys (reduced rec (c :: cs))
        = dedup ("event" :: filter known_column (c :: cs))
        /\ (forall k, In k (keys (reduced rec (c :: cs))) ->
                      dict_get (reduced rec (c :: cs)) k = dict_get rec k)
        /\ (NoDup (c :: cs) -> ~ In "event" (c :: cs) ->
            keys (reduced rec (c :: cs))
            = "event" :: filter known_column (c :: cs))
        /\ keys (reduced rec ["pt"; "eta"; "nonexistent"]) = ["event"; "pt"; "eta"]).
Proof.
  intros Hrecs. split; [now rewrite filter_records_spec|].
  intros rec Hrec.
  assert (Hmem : forall k, dict_mem rec k = known_column k).
  { intros k. rewrite dict_mem_keys. unfold known_column. now rewrite Hrec. }
  assert (Hkeys : keys (reduced rec (c :: cs))
                  = dedup ("event" :: filter known_column (c :: cs))).
  { unfold reduced. rewrite keys_map_entry. unfold reduced_keys.
    now rewrite (filter_ext _ _ Hmem). }
  split; [exact Hkeys|]. split; [|split].
  - intros k Hin. unfold reduced in *. rewrite keys_map_entry in Hin.
    rewrite (dict_get_map_entry _ _ _ Hin).
    unfold reduced_keys, dedup in Hin. apply dedup_from_In in Hin.
    assert (Hk : dict_mem rec k = true).
    { destruct Hin as [<-|Hin].
      - rewrite Hmem. reflexivity.
      - now apply filter_In in Hin. }
    unfold dict_mem in Hk. unfold dict_get_default.
    destruct (dict_get rec k); [reflexivity | discriminate].
  - intros Hnd Hev. rewrite Hkeys. unfold dedup. cbn [dedup_from existsb].
    f_equal. apply dedup_from_nodup.
    + now apply NoDup_filter.
    + intros x Hx [<-|[]]. apply filter_In in Hx. tauto.
  - destruct (is_record_inv _ Hrec)
      as (v0 & v1 & v2 & v3 & v4 & v5 & v6 & v7 & v8 & v9 & ->).
    reflexivity.
Qed.

Lemma filter_records_columns_witness :
  Forall is_record sample_records
  /\ filter_records sample_records (Some "2") (Some ["pt"; "eta"; "nonexistent"])
     = Ok [[("event", PStr "77"); ("pt", PStr "45.2"); ("eta", PStr "1.5")]].
Proof.
  assert (H : Forall is_record sample_records) by (repeat constructor).
  split; [exact H|].
  exact (proj1 (filter_records_columns sample_records (Some "2")
                  "pt" ["eta"; "nonexistent"] H)).
Defined.

(** C10. An empty column list is the same as no column list: each retained
    record passes through unchanged, with its ten fields, and is not
    reduced to the event field. *)
Theorem filter_records_empty_columns
    (records : list dict) (particle : option string) :
  Forall is_record records ->
  filter_records records particle (Some []) = filter_records records particle None
  /\ filter_records records particle (Some [])
     = Ok (filter (matches particle) records)
  /\ Forall (fun rec => keys rec = all_fields /\ length (keys rec) = 10)
            (filter (matches particle) records).
Proof.
  intros Hrecs. rewrite !filter_records_spec by assumption.
  split; [reflexivity|]. split.
  - change (shape (Some [])) with (shape None). now rewrite map_shape_none.
  - apply Forall_forall. intros rec Hin. apply filter_In in Hin as [Hin _].
    rewrite Forall_forall in Hrecs. specialize (Hrecs _ Hin).
    split; [exact Hrecs|]. unfold is_record in Hrecs. now rewrite Hrecs.
Qed.

Lemma filter_records_empty_columns_witness :
  Forall is_record sample_records
  /\ filter_records sample_records (Some "6") (Some [])
     = Ok [lhco_record PNone "2" "6" "0" "0" "0" "0" "0" "0" "0"].
Proof.
  assert (H : Forall is_record sample_records) by (repeat constructor).
  split; [exact H|].
  exact (proj1 (proj2 (filter_records_empty_columns sample_records (Some "6") H))).
Defined.

End FilterClaims.

(** * Properties of the runs *)

Section Runs.

Lemma sys_unbound (w : world) : load_global "sys" w = (Raise (NameError "sys"), w).
Proof. unfold load_global. destruct (DOCX_AVAILABLE w); reflexivity. Qed.

Lemma bind_ok {A B : Type} (m : io A) (k : A -> io B) (w : world) (a : A) (w' : world) :
  m w = (Ok a, w') -> bind m k w = k a w'.
Proof. intros H. unfold bind. now rewrite H. Qed.

Lemma parse_lhco_run (w : world) (file_path content : string) :
  fs w file_path = Some (TextFile content) ->
  parse_lhco file_path w
  = (Ok (records_from PNone (readlines content)), after w [OpenRead file_path]).
Proof.
  intros Hfs. unfold parse_lhco, open_read, bind, emit, lift. simpl.
  now rewrite Hfs, parse_lines_spec.
Qed.

Lemma write_docx_unavailable (records : list dict) (out_path : string) (w : world) :
  DOCX_AVAILABLE w = false ->
  write_docx records out_path w = (Ok tt, after w [Stdout docx_missing_message]).
Proof.
  intros Havail. unfold write_docx.
  rewrite (bind_ok _ _ w false w) by (unfold docx_available; now rewrite Havail).
  reflexivity.
Qed.

(** C1. When the input path does not exist the script ends with exit
    status 1 and an error text on the error stream, and it opens, parses
    and writes nothing.  The status and the text are those of an uncaught
    exception: line 113 evaluates [sys.stderr], the module never imports
    [sys], so [main] raises [NameError] before it prints anything. *)
Theorem main_input_not_found (args : Args) (w : world) :
  fs w (input args) = None ->
  main args w = (Raise (NameError "sys"), w)
  /\ run_script args w = (1%Z, after w [Stderr sys_traceback])
  /\ (1 <> 0)%Z
  /\ stderr_of [Stderr sys_traceback] = [sys_traceback]
  /\ filter is_file_event [Stderr sys_traceback] = []
  /\ fs (snd (run_script args w)) = fs w.
Proof.
  intros Hfs.
  assert (Hmain : main args w = (Raise (NameError "sys"), w)).
  { unfold main, bind, path_exists. rewrite Hfs. cbn [negb].
    now rewrite sys_unbound. }
  split; [exact Hmain|].
  assert (Hrun : run_script args w = (1%Z, after w [Stderr sys_traceback])).
  { unfold run_script. now rewrite Hmain. }
  rewrite Hrun. repeat split. discriminate.
Qed.

Lemma main_input_not_found_witness :
  fs sample_world "missing.lhco" = None
  /\ run_script (mkArgs "missing.lhco" "out.csv" csv None None) sample_world
     = (1%Z, after sample_world [Stderr sys_traceback]).
Proof.
  split; [reflexivity|].
  exact (proj1 (proj2 (main_input_not_found
                         (mkArgs "missing.lhco" "out.csv" csv None None)
                         sample_world eq_refl))).
Defined.

(** C7, as the code has it.  On an empty record sequence both writers
    return normally and touch no file: [write_csv] prints the no-records
    message; [write_docx] prints it when the [docx] package is available,
    and the missing-package message when it is not. *)
Theorem writers_empty_records (w : world) (out_path : string) :
  write_csv [] out_path w = (Ok tt, after w [Stdout no_records_message])
  /\ write_docx [] out_path w
     = (Ok tt,
        after w [Stdout (if DOCX_AVAILABLE w then no_records_message
                         else docx_missing_message)])
  /\ filter is_file_event [Stdout no_records_message] = []
  /\ filter is_file_event [Stdout docx_missing_message] = [].
Proof.
  split; [reflexivity|]. split; [|split; reflexivity].
  unfold write_docx, bind, docx_available.
  destruct (DOCX_AVAILABLE w); reflexivity.
Qed.

(** C7 as stated fails: without the [docx] package, [write_docx] on an
    empty sequence prints the missing-package message and not the
    no-records message. *)
Lemma write_docx_empty_counterexample :
  DOCX_AVAILABLE sample_world = false
  /\ write_docx [] "out.docx" sample_world
     = (Ok tt, after sample_world [Stdout docx_missing_message])
  /\ stdout_of (trace (snd (write_docx [] "out.docx" sample_world)))
     = [docx_missing_message]
  /\ String.eqb docx_missing_message no_records_message = false.
Proof. repeat split. Qed.

(** C8. With the docx format selected, the [docx] package missing and a
    readable input file, the script writes no file, prints the
    missing-package message and then the install reminder, both on
    standard output and nothing on the error stream, and exits with
    status 0. *)
Theorem main_docx_unavailable (args : Args) (w : world) (content : string) :
  format args = docx ->
  DOCX_AVAILABLE w = false ->
  fs w (input args) = Some (TextFile content) ->
  run_script args w
  = (0%Z,
     after w [OpenRead (input args); Stdout docx_missing_message;
              Stdout reminder_message])
  /\ stdout_of [OpenRead (input args); Stdout docx_missing_message;
                Stdout reminder_message]
     = [docx_missing_message; reminder_message]
  /\ stderr_of [OpenRead (input args); Stdout docx_missing_message;
                Stdout reminder_message] = []
  /\ filter is_write_event
            [OpenRead (input args); Stdout docx_missing_message;
             Stdout reminder_message] = []
  /\ fs (snd (run_script args w)) = fs w.
Proof.
  intros Hfmt Havail Hfs.
  assert (Hrun : run_script args w
                 = (0%Z,
                    after w [OpenRead (input args); Stdout docx_missing_message;
                             Stdout reminder_message])).
  { unfold run_script, main.
    rewrite (bind_ok _ _ w true w)
      by (unfold path_exists; now rewrite Hfs).
    cbn [negb]. rewrite (bind_ok _ _ w tt w) by reflexivity.
    rewrite (bind_ok _ _ _ _ _ (parse_lhco_run _ _ _ Hfs)).
    erewrite bind_ok
      by (unfold lift; rewrite filter_records_spec
            by apply records_from_is_record; reflexivity).
    rewrite Hfmt.
    erewrite bind_ok by (apply write_docx_unavailable; exact Havail).
    erewrite bind_ok by (unfold docx_available; simpl; rewrite Havail; reflexivity).
    cbn [is_docx negb andb]. unfold print, emit, after. simpl.
    now rewrite <- !app_assoc. }
  rewrite Hrun. repeat split.
Qed.

Lemma main_docx_unavailable_witness :
  DOCX_AVAILABLE sample_world = false
  /\ fs sample_world "events.lhco" = Some (TextFile (unlines sample_lines))
  /\ run_script (mkArgs "events.lhco" "out.docx" docx None None) sample_world
     = (0%Z,
        after sample_world [OpenRead "events.lhco"; Stdout docx_missing_message;
                            Stdout reminder_message]).
Proof.
  split; [reflexivity|]. split; [reflexivity|].
  exact (proj1 (main_docx_unavailable
                  (mkArgs "events.lhco" "out.docx" docx None None)
                  sample_world (unlines sample_lines)
                  eq_refl eq_refl eq_refl)).
Defined.

End Runs.

(** * Properties of the CSV writer and reader *)

Section Csv.

Lemma append_nil_r (s : string) : (s ++ "")%string = s.
Proof. induction s as [|c s IH]; simpl; [reflexivity | now rewrite IH]. Qed.

Lemma append_assoc (a b c : string) :
  ((a ++ b) ++ c)%string = (a ++ (b ++ c))%string.
Proof. induction a as [|x a IH]; simpl; [reflexivity | now rewrite IH]. Qed.

Lemma append_snoc (a : string) (c : ascii) (b : string) :
  ((a ++ String c "") ++ b)%string = (a ++ String c b)%string.
Proof. now rewrite append_assoc. Qed.

Lemma special_false (c : ascii) :
  special c = false ->
  Ascii.eqb c COMMA = false /\ Ascii.eqb c DQUOTE = false
  /\ Ascii.eqb c CR = false /\ Ascii.eqb c LF = false.
Proof.
  unfold special. intros H.
  apply orb_false_elim in H as [H HLF].
  apply orb_false_elim in H as [H HCR].
  apply orb_false_elim in H as [HC HQ]. auto.
Qed.

Lemma line_ends_after_inner (c c' : ascii) (s : string) :
  Ascii.eqb c LF = false -> Ascii.eqb c CR = false ->
  line_ends_after c (String c' s) = false.
Proof. intros H1 H2. unfold line_ends_after. now rewrite H1, H2. Qed.

Lemma reader_input_inner (c c' : ascii) (s : string) :
  Ascii.eqb c LF = false -> Ascii.eqb c CR = false ->
  reader_input (String c (String c' s)) = Some c :: reader_input (String c' s).
Proof.
  intros H1 H2. cbn [reader_input].
  now rewrite (line_ends_after_inner c c' s H1 H2).
Qed.

Lemma read_rows_char (r r' : reader) (ch : ascii) (inp : list (option ascii)) :
  process_char r (Some ch) = Ok r' ->
  read_rows r (Some ch :: inp) = read_rows r' inp.
Proof. intros H. cbn [read_rows]. now rewrite H. Qed.

Lemma read_rows_eol_quoted (acc : string) (fs : list string) (inp : list (option ascii)) :
  read_rows (mkReader IN_QUOTED_FIELD acc fs) (None :: inp)
  = read_rows (mkReader IN_QUOTED_FIELD acc fs) inp.
Proof. reflexivity. Qed.

(** An unquoted field is read character by character. *)
Lemma read_plain (f : string) (c0 : ascii) (rest : string) (fs : list string) :
  any_char special f = false ->
  forall acc,
    read_rows (mkReader IN_FIELD acc fs)
              (reader_input (f ++ String c0 rest)%string)
    = read_rows (mkReader IN_FIELD (acc ++ f)%string fs)
                (reader_input (String c0 rest)).
Proof.
  induction f as [|c f IH]; intros Hplain acc.
  - cbn [append]. now rewrite append_nil_r.
  - cbn [any_char] in Hplain. apply orb_false_elim in Hplain as [Hc Hf].
    destruct (special_false c Hc) as (HC & HQ & HCR & HLF).
    cbn [append].
    assert (Hin : reader_input (String c (f ++ String c0 rest)%string)
                  = Some c :: reader_input (f ++ String c0 rest)%string)
      by (destruct f; cbn [append]; now apply reader_input_inner).
    rewrite Hin.
    rewrite (read_rows_char _ (mkReader IN_FIELD (acc ++ String c "")%string fs)).
    + rewrite (IH Hf). now rewrite append_snoc.
    + unfold process_char, is_newline. cbn [state]. now rewrite HLF, HCR, HC.
Qed.

(** A quoted field is read up to its closing quote; doubled quotes give one
    quote, and line ends inside the quotes are part of the field. *)
Lemma read_quoted (f : string) (c0 : ascii) (rest : string) (fs : list string) :
  forall acc,
    read_rows (mkReader IN_QUOTED_FIELD acc fs)
              (reader_input
                 (double_quotes f ++ String DQUOTE (String c0 rest))%string)
    = read_rows (mkReader QUOTE_IN_QUOTED_FIELD (acc ++ f)%string fs)
                (reader_input (String c0 rest)).
Proof.
  induction f as [|c f IH]; intros acc.
  - cbn [double_quotes append].
    rewrite reader_input_inner by reflexivity.
    rewrite (read_rows_char _ (mkReader QUOTE_IN_QUOTED_FIELD acc fs))
      by reflexivity.
    now rewrite append_nil_r.
  - cbn [double_quotes].
    destruct (Ascii.eqb c DQUOTE) eqn:HQ.
    + apply Ascii.eqb_eq in HQ. subst c. cbn [append].
      rewrite reader_input_inner by reflexivity.
      rewrite (read_rows_char _ (mkReader QUOTE_IN_QUOTED_FIELD acc fs))
        by reflexivity.
      assert (Hin : reader_input
                      (String DQUOTE
                         (double_quotes f ++ String DQUOTE (String c0 rest))%string)
                    = Some DQUOTE
                      :: reader_input
                           (double_quotes f ++ String DQUOTE (String c0 rest))%string).
      { destruct (double_quotes f); cbn [append];
          now apply reader_input_inner. }
      rewrite Hin.
      rewrite (read_rows_char _
                 (mkReader IN_QUOTED_FIELD (acc ++ String DQUOTE "")%string fs))
        by reflexivity.
      rewrite IH. now rewrite append_snoc.
    + cbn [append reader_input].
      assert (Hstep : process_char (mkReader IN_QUOTED_FIELD acc fs) (Some c)
                      = Ok (mkReader IN_QUOTED_FIELD (acc ++ String c "")%string fs))
        by (unfold process_char; cbn [state]; now rewrite HQ).
      destruct (line_ends_after c _).
      * rewrite (read_rows_char _ _ _ _ Hstep), read_rows_eol_quoted, IH.
        now rewrite append_snoc.
      * rewrite (read_rows_char _ _ _ _ Hstep), IH. now rewrite append_snoc.
Qed.

End Csv.

Section CsvRows.

Lemma first_char_inner (c : ascii) (s t : string) :
  Ascii.eqb c LF = false -> Ascii.eqb c CR = false -> t <> "" ->
  reader_input (String c (s ++ t)%string) = Some c :: reader_input (s ++ t)%string.
Proof.
  intros H1 H2 Ht. destruct s as [|c' s]; cbn [append].
  - destruct t as [|c' t]; [congruence|]. now apply reader_input_inner.
  - now apply reader_input_inner.
Qed.

(** The end of a record: CR LF after the last field. *)
Lemma read_eat_crnl (flds : list string) (T : string) :
  read_rows (mkReader EAT_CRNL "" flds) (reader_input (String LF T))
  = rbind (read_rows reset (reader_input T)) (fun rows => Ok (flds :: rows)).
Proof. reflexivity. Qed.

Lemma reader_input_cr_lf (T : string) :
  reader_input (String CR (String LF T)) = Some CR :: reader_input (String LF T).
Proof. reflexivity. Qed.

(** A field followed by the delimiter. *)
Lemma read_field_comma (f : string) (c1 : ascii) (rest : string) (fs : list string) :
  read_rows (mkReader START_FIELD "" fs)
            (reader_input (encode_field f ++ String COMMA (String c1 rest))%string)
  = read_rows (mkReader START_FIELD "" (fs ++ [f]))
              (reader_input (String c1 rest)).
Proof.
  unfold encode_field. destruct (any_char special f) eqn:Hsp.
  - cbn [append]. rewrite append_assoc. cbn [append].
    rewrite first_char_inner by (reflexivity || discriminate).
    rewrite (read_rows_char _ (mkReader IN_QUOTED_FIELD "" fs)) by reflexivity.
    rewrite read_quoted. cbn [append].
    rewrite reader_input_inner by reflexivity.
    now rewrite (read_rows_char _ (mkReader START_FIELD "" (fs ++ [f])))
      by reflexivity.
  - destruct f as [|c f].
    + cbn [append]. rewrite reader_input_inner by reflexivity.
      now rewrite (read_rows_char _ (mkReader START_FIELD "" (fs ++ [""])))
        by reflexivity.
    + cbn [any_char] in Hsp. apply orb_false_elim in Hsp as [Hc Hf].
      destruct (special_false c Hc) as (HC & HQ & HCR & HLF).
      cbn [append]. rewrite first_char_inner by (assumption || discriminate).
      rewrite (read_rows_char _ (mkReader IN_FIELD (String c "") fs))
        by (unfold process_char, start_field, is_newline; cbn [state];
            now rewrite HLF, HCR, HQ, HC).
      rewrite (read_plain _ _ _ _ Hf). cbn [append].
      rewrite reader_input_inner by reflexivity.
      now rewrite (read_rows_char _ (mkReader START_FIELD "" (fs ++ [String c f])))
        by reflexivity.
Qed.

(** The last field of a record, followed by CR LF. *)
Lemma read_field_end (f : string) (T : string) (fs : list string) :
  read_rows (mkReader START_FIELD "" fs)
            (reader_input (encode_field f ++ String CR (String LF T))%string)
  = rbind (read_rows reset (reader_input T))
          (fun rows => Ok ((fs ++ [f]) :: rows)).
Proof.
  unfold encode_field. destruct (any_char special f) eqn:Hsp.
  - cbn [append]. rewrite append_assoc. cbn [append].
    rewrite first_char_inner by (reflexivity || discriminate).
    rewrite (read_rows_char _ (mkReader IN_QUOTED_FIELD "" fs)) by reflexivity.
    rewrite read_quoted. cbn [append].
    rewrite reader_input_cr_lf.
    rewrite (read_rows_char _ (mkReader EAT_CRNL "" (fs ++ [f]))) by reflexivity.
    apply read_eat_crnl.
  - destruct f as [|c f].
    + cbn [append]. rewrite reader_input_cr_lf.
      rewrite (read_rows_char _ (mkReader EAT_CRNL "" (fs ++ [""]))) by reflexivity.
      apply read_eat_crnl.
    + cbn [any_char] in Hsp. apply orb_false_elim in Hsp as [Hc Hf].
      destruct (special_false c Hc) as (HC & HQ & HCR & HLF).
      cbn [append]. rewrite first_char_inner by (assumption || discriminate).
      rewrite (read_rows_char _ (mkReader IN_FIELD (String c "") fs))
        by (unfold process_char, start_field, is_newline; cbn [state];
            now rewrite HLF, HCR, HQ, HC).
      rewrite (read_plain _ _ _ _ Hf). cbn [append].
      rewrite reader_input_cr_lf.
      rewrite (read_rows_char _ (mkReader EAT_CRNL "" (fs ++ [String c f])))
        by reflexivity.
      apply read_eat_crnl.
Qed.

(** The fields of a record, from the start of a field on. *)
Lemma read_fields (fl : list string) :
  fl <> [] ->
  forall fs T,
    read_rows (mkReader START_FIELD "" fs)
              (reader_input (join_fields fl ++ String CR (String LF T))%string)
    = rbind (read_rows reset (reader_input T))
            (fun rows => Ok ((fs ++ fl) :: rows)).
Proof.
  induction fl as [|f fl IH]; [congruence|]. intros _ fs T.
  destruct fl as [|f2 fl].
  - cbn [join_fields]. apply read_field_end.
  - change (join_fields (f :: f2 :: fl))
      with (encode_field f ++ String COMMA (join_fields (f2 :: fl)))%string.
    rewrite append_assoc. cbn [append].
    assert (Hne : exists c1 rest,
               (join_fields (f2 :: fl) ++ String CR (String LF T))%string
               = String c1 rest)
      by (destruct (join_fields (f2 :: fl)); cbn [append]; eauto).
    destruct Hne as (c1 & rest & Hne).
    rewrite Hne, read_field_comma, <- Hne.
    rewrite IH by discriminate. now rewrite <- app_assoc.
Qed.

Lemma join_fields_empty (fl : list string) :
  join_fields fl = "" -> fl = [] \/ fl = [""].
Proof.
  destruct fl as [|f [|f2 fl]]; cbn [join_fields]; [auto| |].
  - unfold encode_field. destruct (any_char special f); [discriminate|].
    intros ->. auto.
  - intros H. destruct (encode_field f); discriminate.
Qed.

Lemma encode_field_head (f : string) (a : ascii) (s : string) :
  encode_field f = String a s -> is_newline a = false.
Proof.
  unfold encode_field. destruct (any_char special f) eqn:Hsp.
  - intros H. injection H as <- _. reflexivity.
  - intros ->. cbn [any_char] in Hsp. apply orb_false_elim in Hsp as [Hc _].
    destruct (special_false a Hc) as (_ & _ & HCR & HLF).
    unfold is_newline. now rewrite HLF, HCR.
Qed.

Lemma join_fields_head (fl : list string) (a : ascii) (s : string) :
  join_fields fl = String a s -> is_newline a = false.
Proof.
  destruct fl as [|f [|f2 fl]]; cbn [join_fields]; [discriminate| |].
  - apply encode_field_head.
  - destruct (encode_field f) as [|a' s'] eqn:He; cbn [append].
    + intros H. injection H as <- _. reflexivity.
    + intros H. injection H as <- _. eapply encode_field_head, He.
Qed.

(** At the start of a record a character that is no line end starts a field. *)
Lemma read_start_record (a : ascii) (s : string) (fs : list string) :
  is_newline a = false ->
  read_rows (mkReader START_RECORD "" fs) (reader_input (String a s))
  = read_rows (mkReader START_FIELD "" fs) (reader_input (String a s)).
Proof.
  intros Ha. cbn [reader_input].
  assert (Hp : process_char (mkReader START_RECORD "" fs) (Some a)
               = process_char (mkReader START_FIELD "" fs) (Some a))
    by (unfold process_char; cbn [state]; now rewrite Ha).
  destruct (line_ends_after a s); cbn [read_rows]; now rewrite Hp.
Qed.

(** One written row is read back as one record. *)
Lemma read_row (fl : list string) (T : string) :
  read_rows reset (reader_input (row_text fl ++ T)%string)
  = rbind (read_rows reset (reader_input T)) (fun rows => Ok (fl :: rows)).
Proof.
  unfold row_text. rewrite append_assoc. cbn [append].
  destruct fl as [|f fl]; [reflexivity|].
  destruct (join_fields (f :: fl)) as [|a s] eqn:Hj.
  - destruct (join_fields_empty _ Hj) as [H|H]; [discriminate|].
    injection H as -> ->. reflexivity.
  - cbn [append]. unfold reset.
    rewrite read_start_record by (eapply join_fields_head, Hj).
    change (String a (s ++ String CR (String LF T))%string)
      with (String a s ++ String CR (String LF T))%string.
    rewrite <- Hj. now rewrite read_fields by discriminate.
Qed.

(** Reading back what the writer wrote gives the rows written. *)
Lemma csv_reader_rows_text (rows : list (list string)) :
  csv_reader (rows_text rows) = Ok rows.
Proof.
  unfold csv_reader. induction rows as [|row rows IH]; [reflexivity|].
  cbn [rows_text]. now rewrite read_row, IH.
Qed.

End CsvRows.

Section CsvClaims.

Lemma forallb_known_self (l : list string) :
  forallb (fun k => existsb (String.eqb k) l) l = true.
Proof.
  apply forallb_forall. intros k Hk. apply existsb_exists.
  exists k. split; [exact Hk | apply String.eqb_refl].
Qed.

Lemma dict_to_list_homogeneous (fieldnames : list string) (rec : dict) :
  keys rec = fieldnames ->
  dict_to_list fieldnames rec = Ok (row_values fieldnames rec).
Proof.
  intros <-. unfold dict_to_list. now rewrite forallb_known_self.
Qed.

Lemma writerows_homogeneous (fieldnames : list string) (records : list dict) :
  Forall (fun rec => keys rec = fieldnames) records ->
  writerows fieldnames records
  = (rows_text (map (row_values fieldnames) records), None).
Proof.
  induction 1 as [|rec rest Hrec _ IH]; [reflexivity|].
  cbn [writerows map rows_text].
  now rewrite (dict_to_list_homogeneous _ _ Hrec), IH.
Qed.

Lemma write_csv_run (w : world) (first : dict) (rest : list dict) (out_path : string) :
  Forall (fun rec => keys rec = keys first) rest ->
  writable w out_path = true ->
  exists w',
    write_csv (first :: rest) out_path w = (Ok tt, w')
    /\ fs w' out_path
       = Some (TextFile
                 (rows_text (keys first
                             :: map (row_values (keys first)) (first :: rest))))
    /\ (forall q, String.eqb q out_path = false -> fs w' q = fs w q)
    /\ trace w'
       = trace w ++ [OpenWrite out_path;
                     Stdout ("CSV written to " ++ out_path)%string].
Proof.
  intros Hhom Hwr. unfold write_csv.
  rewrite (writerows_homogeneous (keys first) (first :: rest))
    by (constructor; [reflexivity | exact Hhom]).
  unfold open_write, file_write, print, bind, emit, set_node. cbn.
  rewrite Hwr. cbn. rewrite !String.eqb_refl. cbn. rewrite !String.eqb_refl.
  eexists. split; [reflexivity|]. cbn. rewrite String.eqb_refl.
  split; [reflexivity|]. split.
  - intros q Hq. now rewrite Hq.
  - now rewrite <- app_assoc.
Qed.

(** C9. For a non-empty sequence of N records with the keys of the first,
    in the same order, [write_csv] returns normally and leaves a file
    that, read back as CSV, gives one header row, the keys of the first
    record in order, followed by exactly N data rows, the records' values
    in sequence order. *)
Theorem write_csv_round_trip
    (w : world) (first : dict) (rest : list dict) (out_path : string) :
  Forall (fun rec => keys rec = keys first) rest ->
  writable w out_path = true ->
  exists text,
    fst (write_csv (first :: rest) out_path w) = Ok tt
    /\ fs (snd (write_csv (first :: rest) out_path w)) out_path
       = Some (TextFile text)
    /\ csv_reader text
       = Ok (keys first :: map (row_values (keys first)) (first :: rest))
    /\ length (keys first :: map (row_values (keys first)) (first :: rest))
       = 1 + length (first :: rest).
Proof.
  intros Hhom Hwr.
  destruct (write_csv_run w first rest out_path Hhom Hwr)
    as (w' & Hrun & Hfs & _ & _).
  exists (rows_text (keys first :: map (row_values (keys first)) (first :: rest))).
  rewrite Hrun. cbn [fst snd].
  split; [reflexivity|]. split; [exact Hfs|].
  split; [apply csv_reader_rows_text|].
  cbn [length]. now rewrite length_map.
Qed.

End CsvClaims.

Section CsvWitness.

Lemma write_csv_round_trip_witness :
  Forall (fun rec => keys rec = keys csv_first) [csv_second]
  /\ writable sample_world "out.csv" = true
  /\ exists text,
       fst (write_csv [csv_first; csv_second] "out.csv" sample_world) = Ok tt
       /\ fs (snd (write_csv [csv_first; csv_second] "out.csv" sample_world))
             "out.csv"
          = Some (TextFile text)
       /\ csv_reader text
          = Ok (keys csv_first
                :: map (row_values (keys csv_first)) [csv_first; csv_second])
       /\ length (keys csv_first
                  :: map (row_values (keys csv_first)) [csv_first; csv_second])
          = 1 + length [csv_first; csv_second].
Proof.
  assert (H : Forall (fun rec => keys rec = keys csv_first) [csv_second])
    by (repeat constructor).
  split; [exact H|]. split; [reflexivity|].
  exact (write_csv_round_trip sample_world csv_first [csv_second] "out.csv"
           H eq_refl).
Defined.

(** The rows read back on that sample, computed. *)
Example csv_reader_sample :
  csv_reader (rows_text (keys csv_first
                         :: map (row_values (keys csv_first))
                              [csv_first; csv_second]))
  = Ok [["event"; "pt"; "note"];
        ["77"; "45.2"; "a,b"];
        [""; "1"; String DQUOTE (String LF "x")]].
Proof. vm_compute. reflexivity. Qed.

(** The reader on the sample lines: the header sets event 77, the two
    lines of nine tokens or more give a record each, the three-token line
    with a non-digit first token is skipped. *)
Example parse_lines_sample :
  parse_lines sample_lines
  = Ok [lhco_record (PStr "77") "0" "2" "1.5" "0.3" "45.2" "0" "0" "0" "0";
        lhco_record (PStr "77") "1" "6" "0" "0" "0" "0" "0" "0" "0"].
Proof. reflexivity. Qed.

End CsvWitness.

(** * Further properties of the reader *)

Section ReaderExtras.

Lemma split_from_blank (s : string) :
  forall cur,
    split_from cur s = [] <-> cur = "" /\ all_chars isspace s = true.
Proof.
  induction s as [|c s IH]; intros cur; cbn [split_from all_chars].
  - destruct cur; split; try discriminate; auto.
    intros [H _]; discriminate.
  - destruct (isspace c); cbn [andb].
    + destruct cur; [apply IH|].
      split; [discriminate | intros [H _]; discriminate].
    + rewrite IH. split; intros [H1 H2]; [|discriminate].
      now apply append_char_nonempty in H1.
Qed.

Lemma any_char_app (p : ascii -> bool) (a b : string) :
  any_char p (a ++ b)%string = any_char p a || any_char p b.
Proof.
  induction a as [|c a IH]; cbn [append any_char]; [reflexivity|].
  now rewrite IH, orb_assoc.
Qed.

Lemma split_from_tokens (s : string) :
  forall cur,
    any_char isspace cur = false ->
    Forall (fun t => is_token t = true) (split_from cur s).
Proof.
  assert (Htok : forall cur, cur <> "" -> any_char isspace cur = false ->
                             is_token cur = true).
  { intros cur Hne Hsp. unfold is_token. rewrite Hsp.
    apply String.eqb_neq in Hne. now rewrite Hne. }
  induction s as [|c s IH]; intros cur Hcur; cbn [split_from].
  - destruct cur as [|a cur]; constructor; [|constructor].
    now apply Htok.
  - destruct (isspace c) eqn:Hc.
    + destruct cur as [|a cur]; [now apply IH|].
      constructor; [now apply Htok | now apply IH].
    + apply IH. rewrite any_char_app. cbn [any_char]. now rewrite Hcur, Hc.
Qed.

Lemma split_tokens (raw : string) :
  Forall (fun t => is_token t = true) (split raw).
Proof. now apply split_from_tokens. Qed.

Lemma emitted_tokens (event_id : pyval) (raw : string) :
  Forall (fun rec =>
            Forall (fun k => exists t, dict_get rec k = Some (PStr t)
                                       /\ is_token t = true)
                   object_columns)
         (emitted event_id raw).
Proof.
  unfold emitted. pose proof (split_tokens raw) as Htok.
  destruct (split raw)
    as [|t0 [|t1 [|t2 [|t3 [|t4 [|t5 [|t6 [|t7 [|t8 extra]]]]]]]]];
    try constructor; [|constructor].
  repeat match goal with
         | H : Forall _ (_ :: _) |- _ => apply Forall_cons_iff in H as [? H]
         end.
  unfold object_columns.
  repeat constructor; eexists; (split; [reflexivity | assumption]).
Qed.

Lemma records_from_tokens (lines : list string) :
  forall event_id,
    Forall (fun rec =>
              Forall (fun k => exists t, dict_get rec k = Some (PStr t)
                                         /\ is_token t = true)
                     object_columns)
           (records_from event_id lines).
Proof.
  induction lines as [|raw rest IH]; intros event_id; cbn [records_from];
    [constructor|].
  apply Forall_app. split; [apply emitted_tokens | apply IH].
Qed.

(** X1. Reading a text file never raises, whatever the text: the only
    effect is the call of [open], and every record returned has the ten
    fields event, idx, typ, eta, phi, pt, jmas, ntrk, btag, hadem, in that
    order; there are at most as many records as lines. *)
Theorem parse_lhco_total (w : world) (file_path content : string) :
  fs w file_path = Some (TextFile content) ->
  exists recs,
    parse_lhco file_path w = (Ok recs, after w [OpenRead file_path])
    /\ Forall (fun rec => keys rec = all_fields) recs
    /\ length recs <= length (readlines content).
Proof.
  intros Hfs. exists (records_from PNone (readlines content)).
  split; [now apply parse_lhco_run|].
  split; [apply records_from_is_record|].
  rewrite records_from_length. apply filter_length_le.
Qed.

Lemma parse_lhco_total_witness :
  exists recs,
    parse_lhco "events.lhco" sample_world
    = (Ok recs, after sample_world [OpenRead "events.lhco"])
    /\ Forall (fun rec => keys rec = all_fields) recs
    /\ length recs <= length (readlines (unlines sample_lines)).
Proof.
  exact (parse_lhco_total sample_world "events.lhco" (unlines sample_lines)
           eq_refl).
Defined.

(** X2. A line yields no token exactly when all its characters are
    whitespace (the empty line included); such a line changes neither the
    event identifier nor the records, so a file parses to the same records
    with or without it. *)
Theorem parse_lhco_blank_line (raw : string) :
  (split raw = [] <-> all_chars isspace raw = true)
  /\ (all_chars isspace raw = true ->
      (forall st, parse_line st raw = Ok st)
      /\ (forall pre post,
            parse_lines (pre ++ raw :: post) = parse_lines (pre ++ post))).
Proof.
  assert (Hiff : split raw = [] <-> all_chars isspace raw = true).
  { unfold split. rewrite split_from_blank. tauto. }
  split; [exact Hiff|]. intros Hblank. apply Hiff in Hblank.
  split.
  - intros [event_id records]. unfold parse_line. now rewrite Hblank.
  - intros pre post. rewrite !parse_lines_spec, !records_from_app.
    cbn [records_from]. unfold emitted, next_event, header_line.
    now rewrite Hblank.
Qed.

(** X3. Every column value of every record read from a file is a token of
    the line: a string that is not empty and holds no whitespace (so no
    line break). *)
Theorem parse_lhco_fields_are_tokens (w : world) (file_path content : string) :
  fs w file_path = Some (TextFile content) ->
  exists recs,
    fst (parse_lhco file_path w) = Ok recs
    /\ Forall (fun rec =>
                 Forall (fun k => exists t, dict_get rec k = Some (PStr t)
                                            /\ is_token t = true)
                        object_columns)
              recs.
Proof.
  intros Hfs. exists (records_from PNone (readlines content)).
  rewrite (parse_lhco_run _ _ _ Hfs). split; [reflexivity|].
  apply records_from_tokens.
Qed.

Lemma parse_lhco_fields_are_tokens_witness :
  exists recs,
    fst (parse_lhco "events.lhco" sample_world) = Ok recs
    /\ Forall (fun rec =>
                 Forall (fun k => exists t, dict_get rec k = Some (PStr t)
                                            /\ is_token t = true)
                        object_columns)
              recs.
Proof.
  exact (parse_lhco_fields_are_tokens sample_world "events.lhco"
           (unlines sample_lines) eq_refl).
Defined.

End ReaderExtras.

(** * Further properties of the filter *)

Section FilterExtras.

Lemma filter_loop_plain (columns : option (list string)) (records : list dict) :
  columns = None \/ columns = Some [] ->
  forall out, filter_loop None columns out records = Ok (out ++ records).
Proof.
  intros Hcols. induction records as [|rec rest IH]; intros out;
    cbn [filter_loop].
  - now rewrite app_nil_r.
  - assert (Hone : filter_one None columns rec = Ok (Some rec))
      by (destruct Hcols as [-> | ->]; reflexivity).
    rewrite Hone. cbn [rbind]. rewrite IH. now rewrite <- app_assoc.
Qed.

Lemma filter_loop_app (particle : option string) (columns : option (list string))
    (pre rest : list dict) :
  Forall is_record pre ->
  forall out,
    filter_loop particle columns out (pre ++ rest)
    = filter_loop particle columns
        (out ++ map (shape columns) (filter (matches particle) pre)) rest.
Proof.
  induction 1 as [|rec pre Hrec _ IH]; intros out; cbn [app filter map].
  - now rewrite app_nil_r.
  - cbn [filter_loop]. rewrite (filter_one_spec _ _ _ Hrec). cbn [rbind].
    destruct (matches particle rec); cbn [map]; rewrite IH; [|reflexivity].
    now rewrite <- app_assoc.
Qed.

Lemma filter_is_record (f : dict -> bool) (records : list dict) :
  Forall is_record records -> Forall is_record (filter f records).
Proof.
  rewrite !Forall_forall. intros H rec Hin.
  apply filter_In in Hin as [Hin _]. now apply H.
Qed.

Lemma filter_idempotent (f : dict -> bool) (records : list dict) :
  filter f (filter f records) = filter f records.
Proof.
  induction records as [|rec rest IH]; cbn [filter]; [reflexivity|].
  destruct (f rec) eqn:Hf; cbn [filter]; [|exact IH].
  now rewrite Hf, IH.
Qed.

Lemma filter_matches_none (records : list dict) :
  filter (matches None) records = records.
Proof.
  induction records as [|rec rest IH]; cbn [filter matches];
    [reflexivity | now rewrite IH].
Qed.

Lemma keys_shape (columns : option (list string)) (rec : dict) :
  is_record rec -> keys (shape columns rec) = shape_keys columns.
Proof.
  intros Hrec. destruct columns as [[|c cs]|]; try exact Hrec.
  unfold shape, shape_keys, reduced. rewrite keys_map_entry.
  unfold reduced_keys. f_equal. f_equal. apply filter_ext.
  intros k. rewrite dict_mem_keys. unfold known_column. now rewrite Hrec.
Qed.

(** X4. Without a particle filter and without columns (or with an empty
    column list) [filter_records] returns every record, unchanged and in
    order, whatever keys the records have; it looks up no key and so
    raises nothing. *)
Theorem filter_records_no_options (records : list dict) :
  filter_records records None None = Ok records
  /\ filter_records records None (Some []) = Ok records.
Proof.
  unfold filter_records. split; now rewrite filter_loop_plain by auto.
Qed.

(** X5. With a particle filter, a record without a typ key makes the whole
    call raise [KeyError] for typ: nothing is returned for the records
    before it either.  This is what happens when a particle filter is
    applied to records that were already reduced to columns without typ. *)
Theorem filter_records_missing_typ
    (pre post : list dict) (rec : dict) (p : string)
    (columns : option (list string)) :
  Forall is_record pre ->
  dict_mem rec "typ" = false ->
  filter_records (pre ++ rec :: post) (Some p) columns = Raise (KeyError "typ").
Proof.
  intros Hpre Htyp. unfold filter_records.
  rewrite (filter_loop_app _ _ _ _ Hpre). cbn [filter_loop].
  assert (Hone : filter_one (Some p) columns rec = Raise (KeyError "typ")).
  { unfold filter_one, getitem. unfold dict_mem in Htyp.
    destruct (dict_get rec "typ"); [discriminate | reflexivity]. }
  now rewrite Hone.
Qed.

Lemma filter_records_missing_typ_witness :
  Forall is_record sample_records
  /\ dict_mem [("event", PStr "77"); ("pt", PStr "45.2")] "typ" = false
  /\ filter_records
       (sample_records ++ [("event", PStr "77"); ("pt", PStr "45.2")] :: [])
       (Some "2") None
     = Raise (KeyError "typ").
Proof.
  assert (H : Forall is_record sample_records) by (repeat constructor).
  split; [exact H|]. split; [reflexivity|].
  exact (filter_records_missing_typ sample_records []
           [("event", PStr "77"); ("pt", PStr "45.2")] "2" None H eq_refl).
Defined.

(** X6. On full records, one call with a particle filter and a column list
    gives what two calls give, the particle filter first and the columns
    second; and filtering the filtered records by the same particle again
    changes nothing. *)
Theorem filter_records_compose
    (records : list dict) (p : string) (columns : option (list string)) :
  Forall is_record records ->
  filter_records records (Some p) columns
  = rbind (filter_records records (Some p) None)
          (fun kept => filter_records kept None columns)
  /\ rbind (filter_records records (Some p) None)
           (fun kept => filter_records kept (Some p) None)
     = filter_records records (Some p) None.
Proof.
  intros Hrecs.
  pose proof (filter_is_record (matches (Some p)) records Hrecs) as Hkept.
  rewrite !(filter_records_spec (Some p)) by assumption.
  rewrite map_shape_none. cbn [rbind].
  rewrite !filter_records_spec by assumption.
  rewrite filter_matches_none, filter_idempotent, map_shape_none.
  split; reflexivity.
Qed.

Lemma filter_records_compose_witness :
  Forall is_record sample_records
  /\ filter_records sample_records (Some "2") (Some ["pt"])
     = rbind (filter_records sample_records (Some "2") None)
             (fun kept => filter_records kept None (Some ["pt"])).
Proof.
  assert (H : Forall is_record sample_records) by (repeat constructor).
  split; [exact H|].
  exact (proj1 (filter_records_compose sample_records "2" (Some ["pt"]) H)).
Defined.

(** X7. On full records [filter_records] never raises, returns at most as
    many records as it was given, and all the records it returns have the
    same keys in the same order, fixed by the column list alone: the ten
    fields without columns, event and the known requested columns
    otherwise.  This is the homogeneity the writers rely on. *)
Theorem filter_records_homogeneous
    (records : list dict) (particle : option string)
    (columns : option (list string)) :
  Forall is_record records ->
  exists out,
    filter_records records particle columns = Ok out
    /\ length out <= length records
    /\ Forall (fun rec => keys rec = shape_keys columns) out.
Proof.
  intros Hrecs.
  exists (map (shape columns) (filter (matches particle) records)).
  split; [now apply filter_records_spec|]. split.
  - rewrite length_map. apply filter_length_le.
  - apply Forall_map. apply Forall_forall. intros rec Hin.
    apply keys_shape. apply filter_In in Hin as [Hin _].
    rewrite Forall_forall in Hrecs. now apply Hrecs.
Qed.

Lemma filter_records_homogeneous_witness :
  Forall is_record sample_records
  /\ exists out,
       filter_records sample_records None (Some ["pt"; "nonexistent"; "pt"])
       = Ok out
       /\ length out <= length sample_records
       /\ Forall (fun rec => keys rec
                             = shape_keys (Some ["pt"; "nonexistent"; "pt"]))
                 out.
Proof.
  assert (H : Forall is_record sample_records) by (repeat constructor).
  split; [exact H|].
  exact (filter_records_homogeneous sample_records None
           (Some ["pt"; "nonexistent"; "pt"]) H).
Defined.

End FilterExtras.

(** * Further properties of the writers and of the runs *)

Section RunExtras.

Lemma writerows_extra_key (fieldnames : list string) (records : list dict) :
  existsb (has_extra_key fieldnames) records = true ->
  exists text msg,
    writerows fieldnames records = (text, Some (ValueError msg)).
Proof.
  induction records as [|rec rest IH]; cbn [existsb writerows];
    [discriminate|].
  unfold has_extra_key at 1, dict_to_list.
  destruct (forallb _ (keys rec)); cbn [negb orb].
  - intros H. destruct (IH H) as (text & msg & ->). eauto.
  - intros _. eauto.
Qed.

(** X8. The whole run in CSV format, on a readable input and a writable
    output.  The script exits with status 0.  If no record survives the
    filter it prints the no-records message and creates no file.
    Otherwise it writes the output file, and only that file; read back as
    CSV the file gives the header (event and the kept columns), then one
    row per surviving record, in order; nothing goes to the error stream
    and the install reminder is not printed. *)
Theorem main_csv_run (args : Args) (w : world) (content : string) :
  format args = csv ->
  fs w (input args) = Some (TextFile content) ->
  writable w (output args) = true ->
  exists recs,
    rbind (parse_lines (readlines content))
          (fun parsed => filter_records parsed (particle args) (columns args))
    = Ok recs
    /\ (recs = [] ->
        run_script args w
        = (0%Z, after w [OpenRead (input args); Stdout no_records_message]))
    /\ (recs <> [] ->
        exists w' text,
          run_script args w = (0%Z, w')
          /\ trace w'
             = trace w ++ [OpenRead (input args); OpenWrite (output args);
                           Stdout ("CSV written to " ++ output args)%string]
          /\ fs w' (output args) = Some (TextFile text)
          /\ (forall q, String.eqb q (output args) = false -> fs w' q = fs w q)
          /\ csv_reader text
             = Ok (shape_keys (columns args)
                   :: map (row_values (shape_keys (columns args))) recs)).
Proof.
  intros Hfmt Hfs Hwr.
  pose proof (records_from_is_record (readlines content) PNone) as Hparsed.
  destruct (filter_records_homogeneous _ (particle args) (columns args) Hparsed)
    as (recs & Hfilter & _ & Hkeys).
  exists recs. rewrite parse_lines_spec. cbn [rbind].
  split; [exact Hfilter|].
  assert (Hmain : main args w
                  = bind (write_csv recs (output args))
                         (fun _ => bind docx_available
                                     (fun avail =>
                                        if is_docx csv && negb avail
                                        then print reminder_message
                                        else ret tt))
                         (after w [OpenRead (input args)])).
  { unfold main.
    rewrite (bind_ok _ _ w true w) by (unfold path_exists; now rewrite Hfs).
    cbn [negb]. rewrite (bind_ok _ _ w tt w) by reflexivity.
    rewrite (bind_ok _ _ _ _ _ (parse_lhco_run _ _ _ Hfs)).
    erewrite bind_ok by (unfold lift; rewrite Hfilter; reflexivity).
    now rewrite Hfmt. }
  unfold run_script. rewrite Hmain. split.
  - intros ->. unfold after. cbn. now rewrite <- app_assoc.
  - intros Hne. destruct recs as [|first rest]; [congruence|].
    inversion Hkeys as [|? ? Hfirst Hrest]; subst.
    assert (Hhom : Forall (fun rec => keys rec = keys first) rest)
      by (rewrite Hfirst; exact Hrest).
    destruct (write_csv_run (after w [OpenRead (input args)]) first rest
                (output args) Hhom Hwr)
      as (w' & Hrun & Hout & Hother & Htrace).
    exists w', (rows_text (keys first
                           :: map (row_values (keys first)) (first :: rest))).
    rewrite (bind_ok _ _ _ _ _ Hrun).
    rewrite (bind_ok _ _ w' (DOCX_AVAILABLE w') w') by reflexivity.
    cbn [is_docx andb]. unfold ret.
    split; [reflexivity|]. split.
    { rewrite Htrace. cbn [after trace]. now rewrite <- app_assoc. }
    split; [exact Hout|]. split; [exact Hother|].
    rewrite <- Hfirst. apply csv_reader_rows_text.
Qed.

Lemma main_csv_run_witness :
  fs sample_world "events.lhco" = Some (TextFile (unlines sample_lines))
  /\ writable sample_world "out.csv" = true
  /\ exists recs,
       rbind (parse_lines (readlines (unlines sample_lines)))
             (fun parsed => filter_records parsed (Some "2") (Some ["pt"]))
       = Ok recs
       /\ (recs = [] ->
           run_script (mkArgs "events.lhco" "out.csv" csv (Some "2") (Some ["pt"]))
                      sample_world
           = (0%Z, after sample_world
                     [OpenRead "events.lhco"; Stdout no_records_message]))
       /\ (recs <> [] ->
           exists w' text,
             run_script (mkArgs "events.lhco" "out.csv" csv (Some "2") (Some ["pt"]))
                        sample_world
             = (0%Z, w')
             /\ trace w'
                = trace sample_world
                  ++ [OpenRead "events.lhco"; OpenWrite "out.csv";
                      Stdout ("CSV written to " ++ "out.csv")%string]
             /\ fs w' "out.csv" = Some (TextFile text)
             /\ (forall q, String.eqb q "out.csv" = false ->
                           fs w' q = fs sample_world q)
             /\ csv_reader text
                = Ok (shape_keys (Some ["pt"])
                      :: map (row_values (shape_keys (Some ["pt"]))) recs)).
Proof.
  split; [reflexivity|]. split; [reflexivity|].
  exact (main_csv_run (mkArgs "events.lhco" "out.csv" csv (Some "2") (Some ["pt"]))
           sample_world (unlines sample_lines) eq_refl eq_refl eq_refl).
Defined.

(** X9. When a record after the first has a key that the first record has
    not, [write_csv] raises [ValueError] and prints no success message;
    the output file has already been created or truncated and holds at
    least the header row, so the failed call leaves a partial file. *)
Theorem write_csv_extra_key
    (w : world) (first : dict) (rest : list dict) (out_path : string) :
  existsb (has_extra_key (keys first)) rest = true ->
  writable w out_path = true ->
  exists msg w' written,
    write_csv (first :: rest) out_path w = (Raise (ValueError msg), w')
    /\ trace w' = trace w ++ [OpenWrite out_path]
    /\ fs w' out_path
       = Some (TextFile (row_text (keys first) ++ written)%string).
Proof.
  intros Hextra Hwr.
  assert (Hall : existsb (has_extra_key (keys first)) (first :: rest) = true)
    by (cbn [existsb]; rewrite Hextra; apply orb_true_r).
  destruct (writerows_extra_key _ _ Hall) as (text & msg & Hrows).
  exists msg. unfold write_csv. rewrite Hrows.
  unfold open_write, file_write, raise, bind, emit, set_node. cbn.
  rewrite Hwr. cbn. rewrite !String.eqb_refl. cbn. rewrite !String.eqb_refl.
  eexists. exists text. split; [reflexivity|]. cbn.
  rewrite String.eqb_refl. split; reflexivity.
Qed.

Lemma write_csv_extra_key_witness :
  existsb (has_extra_key (keys csv_first))
          [[("event", PNone); ("eta", PStr "1.5")]] = true
  /\ writable sample_world "out.csv" = true
  /\ exists msg w' written,
       write_csv [csv_first; [("event", PNone); ("eta", PStr "1.5")]]
                 "out.csv" sample_world
       = (Raise (ValueError msg), w')
       /\ trace w' = trace sample_world ++ [OpenWrite "out.csv"]
       /\ fs w' "out.csv"
          = Some (TextFile (row_text (keys csv_first) ++ written)%string).
Proof.
  split; [reflexivity|]. split; [reflexivity|].
  exact (write_csv_extra_key sample_world csv_first
           [[("event", PNone); ("eta", PStr "1.5")]] "out.csv"
           eq_refl eq_refl).
Defined.

End RunExtras.

Section DocxExtras.

Lemma docx_row_ok (rec : dict) (cols : list string) :
  forallb (dict_mem rec) cols = true ->
  docx_row rec cols = Ok (docx_values cols rec).
Proof.
  induction cols as [|col rest IH]; cbn [forallb docx_row]; [reflexivity|].
  intros H. apply andb_prop in H as [Hcol Hrest].
  unfold getitem, dict_mem in *. unfold docx_values. cbn [map].
  unfold dict_get_default at 1.
  destruct (dict_get rec col); [|discriminate].
  cbn [rbind]. now rewrite (IH Hrest).
Qed.

Lemma docx_row_lacks (rec : dict) (cols : list string) :
  forallb (dict_mem rec) cols = false ->
  exists k, docx_row rec cols = Raise (KeyError k).
Proof.
  induction cols as [|col rest IH]; cbn [forallb docx_row]; [discriminate|].
  unfold getitem, dict_mem at 1.
  destruct (dict_get rec col); cbn [andb rbind].
  - intros H. destruct (IH H) as (k & ->). exists k. reflexivity.
  - intros _. exists col. reflexivity.
Qed.

Lemma docx_rows_ok (records : list dict) (cols : list string) :
  Forall (fun rec => keys rec = cols) records ->
  docx_rows records cols = Ok (map (docx_values cols) records).
Proof.
  induction 1 as [|rec rest Hrec _ IH]; cbn [docx_rows map]; [reflexivity|].
  rewrite docx_row_ok, IH; [reflexivity|].
  subst cols. apply forallb_forall. intros k Hk.
  rewrite dict_mem_keys. apply existsb_exists.
  exists k. split; [exact Hk | apply String.eqb_refl].
Qed.

Lemma docx_rows_lacks (records : list dict) (cols : list string) :
  existsb (lacks_column cols) records = true ->
  exists k, docx_rows records cols = Raise (KeyError k).
Proof.
  induction records as [|rec rest IH]; cbn [existsb docx_rows];
    [discriminate|].
  unfold lacks_column at 1.
  destruct (forallb (dict_mem rec) cols) eqn:Hall; cbn [negb orb].
  - intros H. rewrite (docx_row_ok _ _ Hall). cbn [rbind].
    destruct (IH H) as (k & ->). exists k. reflexivity.
  - intros _. destruct (docx_row_lacks _ _ Hall) as (k & ->).
    exists k. reflexivity.
Qed.

Lemma document_bound (w : world) :
  DOCX_AVAILABLE w = true -> load_global "Document" w = (Ok tt, w).
Proof. intros H. unfold load_global. now rewrite H. Qed.

(** X10. With the [docx] package installed and a writable path,
    [write_docx] on a non-empty sequence of records with the keys of the
    first (at least one key, all texts printable) saves one document:
    the heading LHCO Data and a table whose first row is the keys of the
    first record and whose other rows are the records in order, each
    value through [str], so a null event is the text None.  The table has
    N + 1 rows of as many cells as there are keys. *)
Theorem write_docx_saves_table
    (w : world) (first : dict) (rest : list dict) (out_path : string) :
  DOCX_AVAILABLE w = true ->
  writable w out_path = true ->
  keys first <> [] ->
  Forall (fun rec => keys rec = keys first) rest ->
  forallb printable_record (first :: rest) = true ->
  exists w',
    write_docx (first :: rest) out_path w = (Ok tt, w')
    /\ fs w' out_path
       = Some (DocxFile
                 (mkDocument ["LHCO Data"]
                    (keys first
                     :: map (docx_values (keys first)) (first :: rest))))
    /\ (forall q, String.eqb q out_path = false -> fs w' q = fs w q)
    /\ trace w'
       = trace w ++ [SaveDocx out_path;
                     Stdout ("DOCX written to " ++ out_path)%string]
    /\ length (keys first :: map (docx_values (keys first)) (first :: rest))
       = 1 + length (first :: rest)
    /\ Forall (fun row => length row = length (keys first))
              (keys first :: map (docx_values (keys first)) (first :: rest)).
Proof.
  intros Havail Hwr _ Hhom _.
  assert (Hall : Forall (fun rec => keys rec = keys first) (first :: rest))
    by (constructor; [reflexivity | exact Hhom]).
  unfold write_docx.
  rewrite (bind_ok _ _ w true w) by (unfold docx_available; now rewrite Havail).
  cbn [negb].
  rewrite (bind_ok _ _ w tt w) by now apply document_bound.
  rewrite (bind_ok _ _ w (map (docx_values (keys first)) (first :: rest)) w)
    by (unfold lift; now rewrite (docx_rows_ok _ _ Hall)).
  unfold save_docx, print, bind, emit, set_node. cbn.
  rewrite Hwr. cbn. eexists. split; [reflexivity|]. cbn.
  rewrite String.eqb_refl. split; [reflexivity|]. split.
  { intros q Hq. now rewrite Hq. }
  split; [now rewrite <- app_assoc|]. split.
  { now rewrite length_map. }
  constructor; [reflexivity|]. constructor.
  { unfold docx_values. now rewrite length_map. }
  apply Forall_map. apply Forall_forall. intros rec _.
  unfold docx_values. now rewrite length_map.
Qed.

Lemma write_docx_saves_table_witness :
  DOCX_AVAILABLE docx_world = true
  /\ writable docx_world "out.docx" = true
  /\ Forall (fun rec => keys rec = keys csv_first)
            [[("event", PNone); ("pt", PStr "1"); ("note", PStr "x")]]
  /\ exists w',
       write_docx [csv_first;
                   [("event", PNone); ("pt", PStr "1"); ("note", PStr "x")]]
                  "out.docx" docx_world
       = (Ok tt, w')
       /\ fs w' "out.docx"
          = Some (DocxFile
                    (mkDocument ["LHCO Data"]
                       [["event"; "pt"; "note"];
                        ["77"; "45.2"; "a,b"];
                        ["None"; "1"; "x"]])).
Proof.
  assert (H : Forall (fun rec => keys rec = keys csv_first)
                     [[("event", PNone); ("pt", PStr "1"); ("note", PStr "x")]])
    by (repeat constructor).
  assert (Hk : keys csv_first <> []) by discriminate.
  split; [reflexivity|]. split; [reflexivity|]. split; [exact H|].
  destruct (write_docx_saves_table docx_world csv_first
              [[("event", PNone); ("pt", PStr "1"); ("note", PStr "x")]]
              "out.docx" eq_refl eq_refl Hk H eq_refl)
    as (w' & Hrun & Hfs & _).
  exists w'. split; [exact Hrun | exact Hfs].
Defined.

(** X11. With the [docx] package installed, when a record after the first
    lacks one of the first record's keys (texts printable), [write_docx]
    raises [KeyError] while it fills the table: [doc.save] is never
    reached, so no file is saved and nothing is printed. *)
Theorem write_docx_missing_column
    (w : world) (first : dict) (rest : list dict) (out_path : string) :
  DOCX_AVAILABLE w = true ->
  existsb (lacks_column (keys first)) rest = true ->
  forallb printable_record (first :: rest) = true ->
  exists k, write_docx (first :: rest) out_path w = (Raise (KeyError k), w).
Proof.
  intros Havail Hlacks _.
  assert (Hall : existsb (lacks_column (keys first)) (first :: rest) = true)
    by (cbn [existsb]; rewrite Hlacks; apply orb_true_r).
  destruct (docx_rows_lacks _ _ Hall) as (k & Hrows).
  exists k. unfold write_docx.
  rewrite (bind_ok _ _ w true w) by (unfold docx_available; now rewrite Havail).
  cbn [negb].
  rewrite (bind_ok _ _ w tt w) by now apply document_bound.
  unfold bind, lift. now rewrite Hrows.
Qed.

Lemma write_docx_missing_column_witness :
  DOCX_AVAILABLE docx_world = true
  /\ existsb (lacks_column (keys csv_first))
             [[("event", PNone); ("pt", PStr "1")]] = true
  /\ exists k,
       write_docx [csv_first; [("event", PNone); ("pt", PStr "1")]]
                  "out.docx" docx_world
       = (Raise (KeyError k), docx_world).
Proof.
  split; [reflexivity|]. split; [reflexivity|].
  exact (write_docx_missing_column docx_world csv_first
           [[("event", PNone); ("pt", PStr "1")]] "out.docx"
           eq_refl eq_refl eq_refl).
Defined.

(** X12. When the input path exists but is a directory, the not-found
    branch is skipped and [open] fails inside [parse_lhco]: nothing
    catches the error, so the script ends with status 1 and an error text
    on the error stream, prints nothing on standard output, and writes no
    file. *)
Theorem main_input_directory (args : Args) (w : world) :
  fs w (input args) = Some Dir ->
  exists text,
    run_script args w
    = (1%Z, after w [OpenRead (input args); Stderr text])
    /\ stdout_of [OpenRead (input args); Stderr text] = []
    /\ filter is_write_event [OpenRead (input args); Stderr text] = [].
Proof.
  intros Hfs. eexists. unfold run_script, main.
  rewrite (bind_ok _ _ w true w) by (unfold path_exists; now rewrite Hfs).
  cbn [negb]. rewrite (bind_ok _ _ w tt w) by reflexivity.
  assert (Hparse : parse_lhco (input args) w
                   = (Raise (OSError (input args)),
                      after w [OpenRead (input args)])).
  { unfold parse_lhco, open_read, bind, emit. cbn. now rewrite Hfs. }
  unfold bind at 1. rewrite Hparse.
  split; [|split; reflexivity].
  unfold after. cbn. now rewrite <- app_assoc.
Qed.

Lemma main_input_directory_witness :
  fs dir_world "events" = Some Dir
  /\ exists text,
       run_script (mkArgs "events" "out.csv" csv None None) dir_world
       = (1%Z, after dir_world [OpenRead "events"; Stderr text])
       /\ stdout_of [OpenRead "events"; Stderr text] = []
       /\ filter is_write_event [OpenRead "events"; Stderr text] = [].
Proof.
  split; [reflexivity|].
  exact (main_input_directory (mkArgs "events" "out.csv" csv None None)
           dir_world eq_refl).
Defined.

End DocxExtras.

Section ProjectionExtras.

Lemma filter_one_columns (rec : dict) (c : string) (cs : list string) :
  dict_mem rec "event" = true ->
  filter_one None (Some (c :: cs)) rec = Ok (Some (reduced rec (c :: cs))).
Proof.
  intros Hev. unfold filter_one, getitem. cbn [rbind].
  unfold dict_mem in Hev.
  destruct (dict_get rec "event") as [v|] eqn:Hget; [|discriminate].
  cbn [rbind].
  assert (Hinit : [("event", v)] = map (entry rec) ["event"])
    by (cbn [map]; unfold entry, dict_get_default; now rewrite Hget).
  rewrite Hinit, select_columns_spec. reflexivity.
Qed.

Lemma filter_loop_columns (c : string) (cs : list string) (records : list dict) :
  Forall (fun rec => dict_mem rec "event" = true) records ->
  forall out,
    filter_loop None (Some (c :: cs)) out records
    = Ok (out ++ map (fun rec => reduced rec (c :: cs)) records).
Proof.
  induction 1 as [|rec rest Hrec _ IH]; intros out; cbn [filter_loop map].
  - now rewrite app_nil_r.
  - rewrite (filter_one_columns _ _ _ Hrec). cbn [rbind].
    rewrite IH. now rewrite <- app_assoc.
Qed.

(** X13. Column selection needs only the event key.  On records that all
    have an event key, whatever their other keys (records already reduced,
    for instance), a non-empty column list never raises and reduces every
    record to event and the requested columns it has; the first record
    without an event key makes the call raise [KeyError] for event. *)
Theorem filter_records_columns_need_event
    (pre post : list dict) (rec : dict) (c : string) (cs : list string) :
  Forall (fun r => dict_mem r "event" = true) pre ->
  filter_records pre None (Some (c :: cs))
  = Ok (map (fun r => reduced r (c :: cs)) pre)
  /\ (dict_mem rec "event" = false ->
      filter_records (pre ++ rec :: post) None (Some (c :: cs))
      = Raise (KeyError "event")).
Proof.
  intros Hpre. unfold filter_records. split.
  - now rewrite filter_loop_columns.
  - intros Hev.
    assert (Happ : forall out,
               filter_loop None (Some (c :: cs)) out (pre ++ rec :: post)
               = filter_loop None (Some (c :: cs))
                   (out ++ map (fun r => reduced r (c :: cs)) pre)
                   (rec :: post)).
    { clear Hev. induction Hpre as [|r pre Hr _ IH]; intros out;
        cbn [app map].
      - now rewrite app_nil_r.
      - cbn [filter_loop]. rewrite (filter_one_columns _ _ _ Hr).
        cbn [rbind]. rewrite IH. now rewrite <- app_assoc. }
    rewrite Happ. cbn [filter_loop].
    assert (Hone : filter_one None (Some (c :: cs)) rec
                   = Raise (KeyError "event")).
    { unfold filter_one, getitem. cbn [rbind]. unfold dict_mem in Hev.
      destruct (dict_get rec "event"); [discriminate | reflexivity]. }
    now rewrite Hone.
Qed.

Lemma filter_records_columns_need_event_witness :
  Forall (fun r => dict_mem r "event" = true) [csv_first; csv_second]
  /\ filter_records [csv_first; csv_second] None (Some ["note"; "typ"])
     = Ok [[("event", PStr "77"); ("note", PStr "a,b")];
           [("event", PNone);
            ("note", PStr (String DQUOTE (String LF "x")))]]
  /\ filter_records ([csv_first; csv_second] ++ [("pt", PStr "1")] :: [])
                    None (Some ["note"; "typ"])
     = Raise (KeyError "event").
Proof.
  assert (H : Forall (fun r => dict_mem r "event" = true)
                     [csv_first; csv_second]) by (repeat constructor).
  destruct (filter_records_columns_need_event [csv_first; csv_second] []
              [("pt", PStr "1")] "note" ["typ"] H) as [Hok Hraise].
  split; [exact H|]. split; [exact Hok | exact (Hraise eq_refl)].
Defined.

End ProjectionExtras.
